(** * whatsapp-mcp-go: message store, query engine, history sync and
      Ogg/Opus container analyzer

    A shallow embedding of the bridge's [main] package.  Go values are
    modelled as follows:
    - [int] indices and lengths are [nat] or [Z] (no overflow: buffers and
      tables are far below 2^63 entries);
    - [uint16]/[uint32]/[uint64] are [Z] with the wrap-around written out;
    - [[]byte] is a Go slice: a backing array together with a length, the
      capacity being the length of the backing array;
    - [float64] arithmetic of the waveform synthesis is idealised as
      arithmetic over [R]; conversions between floats and integers whose
      result the language leaves to the platform are taken as parameters;
    - a run-time panic (slice bounds out of range) is an outcome of its own.  *)

From stdpp Require Import base list sorting strings gmap.
From Stdlib Require Import String.
From Stdlib Require Import ZArith List Lia Bool Reals Lra.
From Stdlib.Strings Require Import Byte.
Import ListNotations.

Local Open Scope nat_scope.

(** ** Go run-time outcomes *)

Inductive go (A : Type) : Type :=
| Returned (a : A)
| Panic.
Arguments Returned {A} a.
Arguments Panic {A}.

(** * Container analyzer *)

Module Ogg.

(** A byte slice: [arr] is the backing array seen from the slice's first
    element, [len] the slice length; [cap] is the length of [arr]. *)
Record slice : Type := Slice { arr : list byte; len : nat }.

Definition cap (s : slice) : nat := length (arr s).

(** The slice a freshly allocated, exactly sized buffer gives. *)
Definition of_list (l : list byte) : slice := Slice l (length l).

Definition u8 (b : byte) : Z := Z.of_N (Byte.to_N b).

Definition byte_of_Z (z : Z) : byte :=
  match Byte.of_N (Z.to_N (z mod 256)) with
  | Some b => b
  | None => x00
  end.

(** [a[lo:hi]] on the backing array. *)
Definition sub (a : list byte) (lo hi : nat) : list byte :=
  firstn (hi - lo) (skipn lo a).

Definition index (s : slice) (i : nat) : byte := nth i (arr s) x00.

(** [binary.LittleEndian.UintN] *)
Fixpoint le_uint (bs : list byte) : Z :=
  match bs with
  | [] => 0
  | b :: r => u8 b + 256 * le_uint r
  end%Z.

Fixpoint bytes_eqb (a b : list byte) : bool :=
  match a, b with
  | [], [] => true
  | x :: a', y :: b' => Byte.eqb x y && bytes_eqb a' b'
  | _, _ => false
  end.

Fixpoint has_prefix (s p : list byte) : bool :=
  match p, s with
  | [], _ => true
  | y :: p', x :: s' => Byte.eqb x y && has_prefix s' p'
  | _ :: _, [] => false
  end.

(** [bytes.Index]: offset of the first occurrence of [sep], [None] for -1. *)
Fixpoint bytes_Index_from (k : nat) (s sep : list byte) : option nat :=
  if has_prefix s sep then Some k
  else match s with
       | [] => None
       | _ :: s' => bytes_Index_from (S k) s' sep
       end.

Definition bytes_Index (s sep : list byte) : option nat :=
  bytes_Index_from 0 s sep.

Definition OggS : list byte := list_byte_of_string "OggS".
Definition OpusHead : list byte := list_byte_of_string "OpusHead".

Definition errNotOgg : string :=
  "not a valid Ogg file (missing OggS signature)".

(** The locals of the page loop. *)
Record scan_state : Type := ScanState {
  lastGranule : Z;
  sampleRate : Z;
  preSkip : Z;
  foundOpusHead : bool
}.

Definition scan_init : scan_state := ScanState 0 48000 0 false.

Definition set_lastGranule (g : Z) (st : scan_state) : scan_state :=
  ScanState g (sampleRate st) (preSkip st) (foundOpusHead st).

(** The [if !foundOpusHead && pageSeqNum <= 1] block for the page at [i].
    [pageData := data[i : i+pageSize]] needs [i+pageSize <= cap(data)];
    [pageData[headPos+12 : headPos+16]] needs [headPos+16 <= cap(pageData)],
    which is [cap(data) - i]. *)
Definition read_head (data : slice) (i pageSize : nat) (st : scan_state)
  : go scan_state :=
  if cap data <? i + pageSize then Panic
  else
    let pageData := sub (arr data) i (i + pageSize) in
    match bytes_Index pageData OpusHead with
    | None => Returned st
    | Some headPos =>
        if headPos + 12 <? pageSize then
          let headPos := headPos + 8 in
          if headPos + 12 <=? pageSize then
            if cap data - i <? headPos + 16 then Panic
            else
              let tail := skipn i (arr data) in
              Returned
                (ScanState (lastGranule st)
                   (le_uint (sub tail (headPos + 12) (headPos + 16)))
                   (le_uint (sub tail (headPos + 10) (headPos + 12)))
                   true)
          else Returned st
        else Returned st
    end.

Definition sum_segments (segmentTable : list byte) : nat :=
  fold_left (fun acc segLen => acc + Z.to_nat (u8 segLen)) segmentTable 0.

(** How one turn of the page loop ends: [break] (or a false loop condition),
    the next offset with the updated locals, or a panic. *)
Inductive step : Type :=
| Break (st : scan_state)
| Next (i : nat) (st : scan_state)
| Crash.

(** The body of [for i := 0; i < len(data); { ... }] at offset [i]. *)
Definition page_step (data : slice) (i : nat) (st : scan_state) : step :=
  if negb (i <? len data) then Break st
  else if len data <=? i + 27 then Break st
  else if negb (bytes_eqb (sub (arr data) i (i + 4)) OggS)
  then Next (S i) st
  else
    let granulePos := le_uint (sub (arr data) (i + 6) (i + 14)) in
    let pageSeqNum := le_uint (sub (arr data) (i + 18) (i + 22)) in
    let numSegments := Z.to_nat (u8 (index data (i + 26))) in
    if len data <=? i + 27 + numSegments then Break st
    else
      let segmentTable := sub (arr data) (i + 27) (i + 27 + numSegments) in
      let pageSize := 27 + numSegments + sum_segments segmentTable in
      match
        (if negb (foundOpusHead st) && (pageSeqNum <=? 1)%Z
         then read_head data i pageSize st
         else Returned st)
      with
      | Panic => Crash
      | Returned st1 =>
          Next (i + pageSize)
            (if (granulePos =? 0)%Z then st1
             else set_lastGranule granulePos st1)
      end.

(** The loop.  Every turn moves [i] forward, so [len data - i] turns are
    enough; [fuel] is only the structural argument (see
    [scan_fuel_irrelevant]). *)
Fixpoint scan (fuel : nat) (data : slice) (i : nat) (st : scan_state)
  : go scan_state :=
  match fuel with
  | O => Returned st
  | S fuel' =>
      match page_step data i st with
      | Break st' => Returned st'
      | Crash => Panic
      | Next i' st' => scan fuel' data i' st'
      end
  end.

Definition has_signature (data : slice) : bool :=
  negb (len data <? 4) && bytes_eqb (sub (arr data) 0 4) OggS.

Definition clamp_duration (duration : Z) : Z :=
  if (duration <? 1)%Z then 1%Z
  else if (300 <? duration)%Z then 300%Z
  else duration.

Section Analyzer.

(** [rand.New(rand.NewSource(seed))]: the [k]-th call of [Float64] on a
    generator seeded with [seed]. *)
Variable rand_Float64 : Z -> nat -> R.

(** [uint32(math.Ceil(float64(n) / float64(r)))] as the platform computes
    it; the language leaves the result open when the quotient is not a
    representable [uint32] (division by zero, overflow). *)
Variable f64_ceil_quot_u32 : Z -> Z -> Z.

(** [byte(val)] for a float: truncation toward zero. *)
Definition R_trunc (v : R) : Z :=
  if Rle_dec 0 v then Int_part v else (- Int_part (- v))%Z.

Definition waveformLength : nat := 64.

Definition sample (duration : Z) (i : nat) : byte :=
  let baseAmplitude := 35%R in
  let frequencyFactor := (IZR (Z.min duration 120) / 30)%R in
  let pos := (INR i / INR waveformLength)%R in
  let val := (baseAmplitude * sin (pos * PI * frequencyFactor * 8))%R in
  let val :=
    (val + (baseAmplitude / 2) * sin (pos * PI * frequencyFactor * 16))%R in
  let val := (val + (rand_Float64 duration i - 0.5) * 15)%R in
  let fadeInOut := sin (pos * PI) in
  let val := (val * (0.7 + 0.3 * fadeInOut))%R in
  let val := (val + 50)%R in
  let val :=
    if Rlt_dec val 0 then 0%R
    else if Rgt_dec val 100 then 100%R
    else val in
  byte_of_Z (R_trunc val).

Definition placeholderWaveform (duration : Z) : list byte :=
  map (sample duration) (seq 0 waveformLength).

(** The duration computed after the loop, before clamping, as a [uint32]. *)
Definition raw_duration (data : slice) (st : scan_state) : Z :=
  if (0 <? lastGranule st)%Z then
    (f64_ceil_quot_u32 ((lastGranule st - preSkip st) mod 2 ^ 64)
       (sampleRate st) mod 2 ^ 32)%Z
  else
    (Z.of_nat (len data) / 2000 mod 2 ^ 32)%Z.

(** [analyzeOggOpus] returns [(duration, waveform, err)]. *)
Definition analyzeOggOpus (data : slice)
  : go (Z * list byte * option string) :=
  if (len data <? 4) || negb (bytes_eqb (sub (arr data) 0 4) OggS) then
    Returned (0%Z, [], Some errNotOgg)
  else
    match scan (len data) data 0 scan_init with
    | Panic => Panic
    | Returned st =>
        let duration := clamp_duration (raw_duration data st) in
        Returned (duration, placeholderWaveform duration, None)
    end.

End Analyzer.

(** The exact quotient, rounded up, where it is a [uint32]: the value every
    platform gives for a representable quotient. *)
Definition exact_ceil_quot (n r : Z) : Z :=
  if (r =? 0)%Z then 0%Z else (- ((- n) / r))%Z.

Definition rand_half (seed : Z) (k : nat) : R := 0.5%R.

End Ogg.

(** * Repository: the [chats] and [messages] tables *)

Module Store.

(** A [time.Time] column, as a totally ordered instant. *)
Definition time : Type := Z.

Inductive error : Type :=
| ErrNoRows                          (* sql.ErrNoRows *)
| ErrForeignKey                      (* FOREIGN KEY (chat_jid) REFERENCES chats(jid) *)
| ErrNoSuchColumn                    (* a column of a table the statement does not name *)
| ErrNegativeLimit                   (* postgres: LIMIT must not be negative *)
| ErrMessageNotFound (id : string)   (* "message not found: %s" *)
| ErrInvalidAfter                    (* "invalid after format: %w" *)
| ErrInvalidBefore.                  (* "invalid before format: %w" *)

Inductive result (A : Type) : Type :=
| Ok (a : A)
| Err (e : error).
Arguments Ok {A} a.
Arguments Err {A} e.

Record chat_row : Type := ChatRow {
  c_jid : string;
  c_name : string;
  c_last_message_time : time
}.

Record message_row : Type := MessageRow {
  m_id : string;
  m_chat_jid : string;
  m_sender : string;
  m_content : string;
  m_timestamp : time;
  m_is_from_me : bool;
  m_media_type : string;
  m_filename : string;
  m_url : string;
  m_media_key : list byte;
  m_file_sha256 : list byte;
  m_file_enc_sha256 : list byte;
  m_file_length : Z
}.

(** The database: each table as the list of its rows, in the order a scan
    of the table yields them. *)
Record db : Type := DB {
  chats : list chat_row;
  messages : list message_row
}.

Definition empty_db : db := DB [] [].

Definition chat_key (jid : string) (c : chat_row) : bool :=
  String.eqb (c_jid c) jid.

Definition message_key (id chatJID : string) (m : message_row) : bool :=
  String.eqb (m_id m) id && String.eqb (m_chat_jid m) chatJID.

Definition has_chat (st : db) (jid : string) : bool :=
  existsb (chat_key jid) (chats st).

Definition has_message (st : db) (id chatJID : string) : bool :=
  existsb (message_key id chatJID) (messages st).

(** [INSERT OR REPLACE]: the conflicting row is deleted, the new one
    inserted. *)
Definition insert_or_replace {A : Type} (same : A -> bool) (row : A)
    (table : list A) : list A :=
  List.filter (fun r => negb (same r)) table ++ [row].

(** [INSERT ... ON CONFLICT (key) DO UPDATE SET col = EXCLUDED.col] over
    every column: the conflicting row is overwritten where it stands. *)
Definition insert_on_conflict_update {A : Type} (same : A -> bool) (row : A)
    (table : list A) : list A :=
  if existsb same table
  then map (fun r => if same r then row else r) table
  else table ++ [row].

(** Primary keys and the foreign key of the schema. *)
Definition chat_pk (st : db) : Prop := NoDup (map c_jid (chats st)).

Definition message_pk (st : db) : Prop :=
  NoDup (map (fun m => (m_id m, m_chat_jid m)) (messages st)).

Definition foreign_key (st : db) : Prop :=
  forall m, In m (messages st) -> has_chat st (m_chat_jid m) = true.

Definition db_wf (st : db) : Prop :=
  chat_pk st /\ message_pk st /\ foreign_key st.

Section Repository.

(** The package-level dialect flag. *)
Variable isPostgres : bool.

Definition upsert {A : Type} (same : A -> bool) (row : A) (table : list A)
  : list A :=
  if isPostgres then insert_on_conflict_update same row table
  else insert_or_replace same row table.

Definition StoreChat (st : db) (jid name : string) (lastMessageTime : time)
  : db * option error :=
  (DB (upsert (chat_key jid) (ChatRow jid name lastMessageTime) (chats st))
      (messages st),
   None).

Definition StoreMessage (st : db) (id chatJID sender content : string)
    (timestamp : time) (isFromMe : bool) (mediaType filename url : string)
    (mediaKey fileSHA256 fileEncSHA256 : list byte) (fileLength : Z)
  : db * option error :=
  if String.eqb content EmptyString && String.eqb mediaType EmptyString
  then (st, None)
  else
    let row :=
      MessageRow id chatJID sender content timestamp isFromMe mediaType
        filename url mediaKey fileSHA256 fileEncSHA256 fileLength in
    if has_chat st chatJID then
      (DB (chats st) (upsert (message_key id chatJID) row (messages st)), None)
    else (st, Some ErrForeignKey).

(** [StoreMessage] called with the thirteen values of a row. *)
Definition StoreMessage_row (st : db) (r : message_row) : db * option error :=
  StoreMessage st (m_id r) (m_chat_jid r) (m_sender r) (m_content r)
    (m_timestamp r) (m_is_from_me r) (m_media_type r) (m_filename r)
    (m_url r) (m_media_key r) (m_file_sha256 r) (m_file_enc_sha256 r)
    (m_file_length r).

Definition StoreMediaInfo (st : db) (id chatJID url : string)
    (mediaKey fileSHA256 fileEncSHA256 : list byte) (fileLength : Z)
  : db * option error :=
  (DB (chats st)
      (map (fun m =>
              if message_key id chatJID m then
                MessageRow (m_id m) (m_chat_jid m) (m_sender m) (m_content m)
                  (m_timestamp m) (m_is_from_me m) (m_media_type m)
                  (m_filename m) url mediaKey fileSHA256 fileEncSHA256
                  fileLength
              else m)
           (messages st)),
   None).

Definition media_info : Type :=
  string * string * string * list byte * list byte * list byte * Z.

Definition GetMediaInfo (st : db) (id chatJID : string)
  : media_info * option error :=
  match List.find (message_key id chatJID) (messages st) with
  | Some m =>
      ((m_media_type m, m_filename m, m_url m, m_media_key m,
        m_file_sha256 m, m_file_enc_sha256 m, m_file_length m), None)
  | None =>
      ((EmptyString, EmptyString, EmptyString, [], [], [], 0%Z),
       Some ErrNoRows)
  end.

End Repository.

End Store.

(** * Query engine *)

Module Query.
Import Store.

Record MessageInteraction : Type := MkInteraction {
  Timestamp : time;
  Sender : string;
  Content : string;
  IsFromMe : bool;
  ChatJID : string;
  ID : string;
  ChatName : string;
  MediaType : string
}.

Record Chat : Type := MkChat {
  JID : string;
  Name : string;
  LastMessageTime : time;
  LastMessage : string;
  LastSender : string;
  LastIsFromMe : bool
}.

Record MessageContext : Type := MkContext {
  Message : MessageInteraction;
  Before : list MessageInteraction;
  After : list MessageInteraction
}.


(** A row of [messages m JOIN chats c ON m.chat_jid = c.jid]. *)
Abbreviation joined := (message_row * chat_row)%type.

Definition join_chats (st : db) : list joined :=
  flat_map
    (fun m =>
       map (pair m) (List.filter (chat_key (m_chat_jid m)) (chats st)))
    (messages st).

(** The column list [m.timestamp, m.sender, c.name, m.content, m.is_from_me,
    c.jid, m.id, m.media_type] scanned into a [MessageInteraction]. *)
Definition interaction (j : joined) : MessageInteraction :=
  MkInteraction (m_timestamp (fst j)) (m_sender (fst j)) (m_content (fst j))
    (m_is_from_me (fst j)) (c_jid (snd j)) (m_id (fst j)) (c_name (snd j))
    (m_media_type (fst j)).

(** [ORDER BY m.timestamp DESC] and [ASC].  Rows with equal timestamps come
    out in an order the engine chooses; nothing below depends on it. *)
Definition ts_desc (a b : joined) : Prop :=
  (m_timestamp (fst b) <= m_timestamp (fst a))%Z.

Definition ts_asc (a b : joined) : Prop :=
  (m_timestamp (fst a) <= m_timestamp (fst b))%Z.

#[global] Instance ts_desc_dec : RelDecision ts_desc :=
  fun a b => Z_le_dec (m_timestamp (fst b)) (m_timestamp (fst a)).

#[global] Instance ts_asc_dec : RelDecision ts_asc :=
  fun a b => Z_le_dec (m_timestamp (fst a)) (m_timestamp (fst b)).

Definition order_by_timestamp_desc (rows : list joined) : list joined :=
  merge_sort ts_desc rows.

Definition order_by_timestamp_asc (rows : list joined) : list joined :=
  merge_sort ts_asc rows.

(** [LEFT JOIN messages m ON c.jid = m.chat_jid
     AND c.last_message_time = m.timestamp] *)
Definition left_join_last_message (st : db)
  : list (chat_row * option message_row) :=
  flat_map
    (fun c =>
       match
         List.filter
           (fun m => String.eqb (c_jid c) (m_chat_jid m)
                     && (c_last_message_time c =? m_timestamp m)%Z)
           (messages st)
       with
       | [] => [(c, None)]
       | ms => map (fun m => (c, Some m)) ms
       end)
    (chats st).

(** Scanning [c.jid, c.name, c.last_message_time, last_message, last_sender,
    last_is_from_me] through the nullable holders. *)
Definition chat_of (r : chat_row * option message_row) : Chat :=
  match snd r with
  | Some m =>
      MkChat (c_jid (fst r)) (c_name (fst r)) (c_last_message_time (fst r))
        (m_content m) (m_sender m) (m_is_from_me m)
  | None =>
      MkChat (c_jid (fst r)) (c_name (fst r)) (c_last_message_time (fst r))
        EmptyString EmptyString false
  end.




Definition bind {A B : Type} (r : result A) (k : A -> result B) : result B :=
  match r with
  | Ok a => k a
  | Err e => Err e
  end.

Notation "'let*' x ':=' r 'in' k" := (bind r (fun x => k))
  (at level 10, x name, r at level 100, k at level 200).

Definition newline : string := String (Ascii.ascii_of_nat 10) EmptyString.

Section Engine.

Variable isPostgres : bool.

(** The engine's [text LIKE pattern] and [LOWER]. *)
Variable sql_like : string -> string -> bool.
Variable sql_lower : string -> string.

(** [time.Parse(time.RFC3339, s)], [None] when it reports an error. *)
Variable parse_RFC3339 : string -> option time.

(** [FormatMessage] renders one transcript line; it formats the timestamp
    and resolves the sender's display name in [chats]. *)
Variable FormatMessage : db -> MessageInteraction -> bool -> string.

(** [LIMIT n]: sqlite takes a negative bound as no bound, postgres rejects
    it. *)
Definition sql_limit {A : Type} (n : Z) (rows : list A) : result (list A) :=
  if (n <? 0)%Z then (if isPostgres then Err ErrNegativeLimit else Ok rows)
  else Ok (firstn (Z.to_nat n) rows).

Definition sql_offset {A : Type} (n : Z) (rows : list A) : result (list A) :=
  if (n <? 0)%Z then (if isPostgres then Err ErrNegativeLimit else Ok rows)
  else Ok (skipn (Z.to_nat n) rows).


Definition before_rows (st : db) (chatJid2 : string) (ts : time)
  : list joined :=
  order_by_timestamp_desc
    (List.filter
       (fun j => String.eqb (m_chat_jid (fst j)) chatJid2
                 && (m_timestamp (fst j) <? ts)%Z)
       (join_chats st)).

Definition after_rows (st : db) (chatJid2 : string) (ts : time)
  : list joined :=
  order_by_timestamp_asc
    (List.filter
       (fun j => String.eqb (m_chat_jid (fst j)) chatJid2
                 && (ts <? m_timestamp (fst j))%Z)
       (join_chats st)).

Definition GetMessageContext (st : db) (messageID : string) (before after : Z)
  : result MessageContext :=
  match
    List.find (fun j => String.eqb (m_id (fst j)) messageID) (join_chats st)
  with
  | None => Err (ErrMessageNotFound messageID)
  | Some target =>
      let ts := m_timestamp (fst target) in
      let chatJid2 := m_chat_jid (fst target) in
      let* bRows := sql_limit before (before_rows st chatJid2 ts) in
      let* aRows := sql_limit after (after_rows st chatJid2 ts) in
      Ok (MkContext (interaction target) (map interaction bRows)
            (map interaction aRows))
  end.




Definition percent : string := "%".






Definition GetLastInteraction (st : db) (jid : string) : result string :=
  match
    order_by_timestamp_desc
      (List.filter
         (fun j => String.eqb (m_sender (fst j)) jid
                   || String.eqb (c_jid (snd j)) jid)
         (join_chats st))
  with
  | [] => Ok EmptyString
  | j :: _ => Ok (FormatMessage st (interaction j) true)
  end.

(** Without the join the statement still selects [m.content]: the engine
    rejects it. *)
Definition GetChat (st : db) (chatJID : string) (includeLastMessage : bool)
  : result (option Chat) :=
  if negb includeLastMessage then Err ErrNoSuchColumn
  else
    match
      List.find (fun r => String.eqb (c_jid (fst r)) chatJID)
        (left_join_last_message st)
    with
    | None => Ok None
    | Some r => Ok (Some (chat_of r))
    end.

Definition group_suffix : string := "%@g.us".

Definition GetDirectChatByContact (st : db) (phone : string) : result Chat :=
  let arg := String.append percent (String.append phone percent) in
  match
    List.find
      (fun r => sql_like (c_jid (fst r)) arg
                && negb (sql_like (c_jid (fst r)) group_suffix))
      (left_join_last_message st)
  with
  | None => Err ErrNoRows
  | Some r => Ok (chat_of r)
  end.

End Engine.

End Query.

(** * History reconciler *)

Module History.
Import Store.

Record JID : Type := MkJID { User : string; Server : string }.

(** The fields [extractMediaInfo] reads from an image, video, audio or
    document payload. *)
Record MediaPayload : Type := MkMedia {
  URL : string;
  MediaKey : list byte;
  FileSHA256 : list byte;
  FileEncSHA256 : list byte;
  FileLength : Z
}.

(** [waE2E.Message], with the getters' defaults folded in: an unset text is
    the empty string, an unset sub-message is [None]. *)
Record E2EMessage : Type := MkE2E {
  Conversation : string;
  ExtendedTextMessage : option string;
  ImageMessage : option MediaPayload;
  VideoMessage : option MediaPayload;
  AudioMessage : option MediaPayload;
  DocumentMessage : option (string * MediaPayload)
}.

Record MessageKey : Type := MkKey {
  FromMe : option bool;
  Participant : option string;
  KeyID : option string
}.

(** [MessageTimestamp] is what [GetMessageTimestamp] returns: 0 when the
    field is unset. *)
Record WebMessageInfo : Type := MkInfo {
  Key : option MessageKey;
  Message : option E2EMessage;
  MessageTimestamp : Z
}.

(** An entry of [conversation.Messages]: the pointer and its [Message]
    field may each be nil. *)
Definition HistorySyncMsg : Type := option (option WebMessageInfo).

Record ConversationEntry : Type := MkConversation {
  conv_ID : option string;
  Messages : list HistorySyncMsg
}.

Definition web_message (msg : HistorySyncMsg) : option WebMessageInfo :=
  match msg with
  | Some (Some w) => Some w
  | _ => None
  end.

Section Reconciler.

Variable isPostgres : bool.

(** [types.ParseJID], [None] when it reports an error. *)
Variable ParseJID : string -> option JID.

(** [GetChatName client store jid chatJID conversation ""]: reads the stored
    name, the sync metadata and the protocol client. *)
Variable GetChatName : db -> JID -> string -> ConversationEntry -> string.

(** [client.Store.ID.User] *)
Variable ownUser : string.

(** [time.Now().Format("20060102_150405")] *)
Variable now_stamp : string.

Definition media_tuple : Type :=
  (string * string * string * list byte * list byte * list byte * Z)%type.

Definition no_media : media_tuple :=
  (EmptyString, EmptyString, EmptyString, [], [], [], 0%Z).

Definition media_of (kind filename : string) (p : MediaPayload)
  : media_tuple :=
  (kind, filename, URL p, MediaKey p, FileSHA256 p, FileEncSHA256 p,
   FileLength p).

Definition extractMediaInfo (msg : option E2EMessage) : media_tuple :=
  match msg with
  | None => no_media
  | Some msg =>
      match ImageMessage msg with
      | Some img =>
          media_of "image"
            (String.append "image_" (String.append now_stamp ".jpg")) img
      | None =>
      match VideoMessage msg with
      | Some vid =>
          media_of "video"
            (String.append "video_" (String.append now_stamp ".mp4")) vid
      | None =>
      match AudioMessage msg with
      | Some aud =>
          media_of "audio"
            (String.append "audio_" (String.append now_stamp ".ogg")) aud
      | None =>
      match DocumentMessage msg with
      | Some (filename, doc) =>
          media_of "document"
            (if String.eqb filename EmptyString
             then String.append "document_" now_stamp
             else filename)
            doc
      | None => no_media
      end end end end
  end.

Definition history_content (w : WebMessageInfo) : string :=
  match Message w with
  | None => EmptyString
  | Some m =>
      if negb (String.eqb (Conversation m) EmptyString) then Conversation m
      else match ExtendedTextMessage m with
           | Some text => text
           | None => EmptyString
           end
  end.

Definition history_sender (jid : JID) (w : WebMessageInfo) : string * bool :=
  match Key w with
  | None => (User jid, false)
  | Some key =>
      let isFromMe := match FromMe key with Some b => b | None => false end in
      match Participant key with
      | Some p =>
          if negb isFromMe && negb (String.eqb p EmptyString) then (p, isFromMe)
          else if isFromMe then (ownUser, isFromMe)
          else (User jid, isFromMe)
      | None =>
          if isFromMe then (ownUser, isFromMe) else (User jid, isFromMe)
      end
  end.

Definition history_msgID (w : WebMessageInfo) : string :=
  match Key w with
  | Some key => match KeyID key with Some id => id | None => EmptyString end
  | None => EmptyString
  end.

(** One turn of [for _, msg := range messages]; the state is the store and
    [syncedCount]. *)
Definition store_history_message (chatJID : string) (jid : JID)
    (acc : db * nat) (msg : HistorySyncMsg) : db * nat :=
  match web_message msg with
  | None => acc
  | Some w =>
      let content := history_content w in
      let '(mediaType, filename, url, mediaKey, fileSHA256, fileEncSHA256,
            fileLength) := extractMediaInfo (Message w) in
      if String.eqb content EmptyString && String.eqb mediaType EmptyString
      then acc
      else
        let '(sender, isFromMe) := history_sender jid w in
        let msgID := history_msgID w in
        if (MessageTimestamp w =? 0)%Z then acc
        else
          match
            StoreMessage isPostgres (fst acc) msgID chatJID sender content
              (MessageTimestamp w) isFromMe mediaType filename url mediaKey
              fileSHA256 fileEncSHA256 fileLength
          with
          | (st', None) => (st', S (snd acc))
          | (st', Some _) => (st', snd acc)
          end
  end.

(** One turn of [for _, conversation := range ...Conversations]. *)
Definition handleConversation (acc : db * nat)
    (conversation : ConversationEntry) : db * nat :=
  match conv_ID conversation with
  | None => acc
  | Some chatJID =>
      match ParseJID chatJID with
      | None => acc
      | Some jid =>
          let name := GetChatName (fst acc) jid chatJID conversation in
          match Messages conversation with
          | [] => acc
          | latestMsg :: _ =>
              match web_message latestMsg with
              | None => acc
              | Some latest =>
                  if (MessageTimestamp latest =? 0)%Z then acc
                  else
                    let st1 :=
                      fst (StoreChat isPostgres (fst acc) chatJID name
                             (MessageTimestamp latest)) in
                    fold_left (store_history_message chatJID jid)
                      (Messages conversation) (st1, snd acc)
              end
          end
      end
  end.

Definition handleHistorySync (st : db)
    (conversations : list ConversationEntry) : db * nat :=
  fold_left handleConversation conversations (st, 0).

End Reconciler.

End History.

(** * Concrete data used to exercise the model *)

Module Samples.
Import Ogg Store Query History.

Definition zeros (n : nat) : list byte := repeat x00 n.

(** A single page without segments whose granule position is 96000,
    followed by one byte. *)
Definition one_page : slice :=
  of_list (OggS ++ zeros 2
           ++ [x00; x77; x01; x00; x00; x00; x00; x00]
           ++ zeros 12 ++ [x00] ++ [x00]).

(** The same page with granule position 95000. *)
Definition one_page' : slice :=
  of_list (OggS ++ zeros 2
           ++ [x18; x73; x01; x00; x00; x00; x00; x00]
           ++ zeros 12 ++ [x00] ++ [x00]).

(** A header announcing 255 segments in a buffer that ends three bytes
    later: the segment table is cut off. *)
Definition cut_table : slice :=
  of_list (OggS ++ zeros 22 ++ [xff] ++ zeros 3).

(** A first page announcing one segment of 255 bytes in an exactly sized
    buffer that holds a single payload byte. *)
Definition cut_payload : slice :=
  of_list (OggS ++ zeros 22 ++ [x01] ++ [xff] ++ zeros 1).

Definition alice : string := "111@s.whatsapp.net".
Definition bob : string := "222@s.whatsapp.net".

Definition text_row (id chatJID sender content : string) (ts : time)
  : message_row :=
  MessageRow id chatJID sender content ts false EmptyString EmptyString
    EmptyString [] [] [] 0%Z.

Definition alice_m1 : message_row := text_row "m1" alice "111" "one" 100%Z.
Definition bob_m2 : message_row := text_row "m2" bob "222" "two" 150%Z.
Definition alice_m2 : message_row := text_row "m2" alice "111" "three" 200%Z.
Definition alice_m3 : message_row := text_row "m3" alice "111" "four" 300%Z.
Definition bob_m4 : message_row := text_row "m4" bob "222" "five" 250%Z.

(** Two chats; the id "m2" occurs in both, first in bob's. *)
Definition sample_db : db :=
  DB [ChatRow alice "Alice" 300%Z; ChatRow bob "Bob" 250%Z]
     [alice_m1; bob_m2; alice_m2; alice_m3; bob_m4].

(** A [LIKE] with the wildcards [%] (code 37) and [_] (code 95), comparing
    characters as they are. *)
Fixpoint sample_like_pattern (pattern : string) : string -> bool :=
  match pattern with
  | EmptyString =>
      fun text => match text with EmptyString => true | _ => false end
  | String c pattern' =>
      if Ascii.eqb c (Ascii.ascii_of_nat 37) then
        fix star (text : string) : bool :=
          sample_like_pattern pattern' text
          || match text with
             | EmptyString => false
             | String _ text' => star text'
             end
      else
        fun text =>
          match text with
          | EmptyString => false
          | String d text' =>
              (Ascii.eqb c (Ascii.ascii_of_nat 95) || Ascii.eqb c d)
              && sample_like_pattern pattern' text'
          end
  end.

Definition sample_like (text pattern : string) : bool :=
  sample_like_pattern pattern text.

Definition sample_lower (s : string) : string := s.


Definition sample_format (st : db) (m : MessageInteraction)
    (showChatInfo : bool) : string :=
  String.append (Content m) newline.




Definition sample_ParseJID (s : string) : option JID :=
  Some (MkJID s "s.whatsapp.net").

Definition sample_name (st : db) (jid : JID) (chatJID : string)
    (conversation : ConversationEntry) : string := chatJID.

Definition history_text (id text : string) (ts : Z) : HistorySyncMsg :=
  Some (Some (MkInfo (Some (MkKey (Some false) None (Some id)))
                (Some (MkE2E text None None None None None)) ts)).

(** A conversation whose message list starts with the older message. *)
Definition oldest_first : ConversationEntry :=
  MkConversation (Some alice)
    [history_text "h1" "older" 100%Z; history_text "h2" "newer" 200%Z].

(** A conversation none of whose messages carries a timestamp. *)
Definition no_timestamps : ConversationEntry :=
  MkConversation (Some alice)
    [history_text "h1" "older" 0%Z; history_text "h2" "newer" 0%Z].

End Samples.

(** * Further read operations of the store *)

Module Reads.
Import Store Query.

(** The [Message] struct that [GetMessages] fills. *)
Record Message : Type := MkMessage {
  msg_Time : time;
  msg_Sender : string;
  msg_Content : string;
  msg_IsFromMe : bool;
  msg_MediaType : string;
  msg_Filename : string
}.

Definition message_of (m : message_row) : Message :=
  MkMessage (m_timestamp m) (m_sender m) (m_content m) (m_is_from_me m)
    (m_media_type m) (m_filename m).

(** [ORDER BY timestamp DESC] on [messages] alone. *)
Definition row_ts_desc (a b : message_row) : Prop :=
  (m_timestamp b <= m_timestamp a)%Z.

#[global] Instance row_ts_desc_dec : RelDecision row_ts_desc :=
  fun a b => Z_le_dec (m_timestamp b) (m_timestamp a).

(** [ORDER BY last_message_time DESC] on [chats]. *)
Definition chat_time_desc (a b : chat_row) : Prop :=
  (c_last_message_time b <= c_last_message_time a)%Z.

#[global] Instance chat_time_desc_dec : RelDecision chat_time_desc :=
  fun a b => Z_le_dec (c_last_message_time b) (c_last_message_time a).


Section Dialect.

Variable isPostgres : bool.

Definition GetMessages (st : db) (chatJID : string) (limit : Z)
  : result (list Message) :=
  let* rows :=
    sql_limit isPostgres limit
      (merge_sort row_ts_desc
         (List.filter (fun m => String.eqb (m_chat_jid m) chatJID)
            (messages st))) in
  Ok (map message_of rows).

(** [GetChats]: the rows are read in descending time order and assigned
    into a map from jid to last message time. *)
Definition GetChats (st : db) : result (gmap string time) :=
  Ok (fold_left
        (fun chats c => <[c_jid c := c_last_message_time c]> chats)
        (merge_sort chat_time_desc (Store.chats st)) ∅).

End Dialect.

End Reads.

(** * The live message path and chat names *)

Module Live.
Import Store History.




(** The two name fields that [GetChatName] reads off a conversation by
    reflection: [DisplayName] and [Name], each a pointer that may be nil. *)
Definition conversation_names : Type := (option string * option string)%type.

Definition group_server : string := "g.us".
Definition group_prefix : string := "Group ".

(** An entry of a history batch that the message loop writes: it has a
    message, some text or media, and a timestamp. *)
Definition storable (now_stamp : string) (msg : HistorySyncMsg) : bool :=
  match web_message msg with
  | None => false
  | Some w =>
      negb (String.eqb (history_content w) EmptyString
            && String.eqb
                 (fst (fst (fst (fst (fst (fst
                    (extractMediaInfo now_stamp (Message w))))))))
                 EmptyString)
      && negb (MessageTimestamp w =? 0)%Z
  end.

(** The row the message loop of the history reconciler writes for an
    entry. *)
Definition history_row_of (ownUser now_stamp chatJID : string) (jid : JID)
    (w : WebMessageInfo) : message_row :=
  let '(mediaType, filename, url, mediaKey, fileSHA256, fileEncSHA256,
        fileLength) := extractMediaInfo now_stamp (Message w) in
  MessageRow (history_msgID w) chatJID (fst (history_sender ownUser jid w))
    (history_content w) (MessageTimestamp w)
    (snd (history_sender ownUser jid w)) mediaType filename url mediaKey
    fileSHA256 fileEncSHA256 fileLength.

Section Handlers.

Variable isPostgres : bool.

(** [client.GetGroupInfo]: the group's name when the call succeeds. *)
Variable GetGroupInfo : JID -> option string.

(** [client.Store.Contacts.GetContact]: the contact's full name when the
    call succeeds. *)
Variable GetContact : JID -> option string.

(** [jid.String()] *)
Variable JID_String : JID -> string.

(** [time.Now().Format("20060102_150405")] *)
Variable now_stamp : string.

(** [QueryRow("SELECT name FROM chats WHERE jid = ?", chatJID)]: the
    statement is written with [?] in both dialects, which postgres does not
    parse, so there the lookup reports an error. *)
Definition existing_name (st : db) (chatJID : string) : option string :=
  if isPostgres then None
  else option_map c_name (List.find (chat_key chatJID) (chats st)).

Definition non_empty (o : option string) : option string :=
  match o with
  | Some s => if String.eqb s EmptyString then None else Some s
  | None => None
  end.

Definition GetChatName (st : db) (jid : JID) (chatJID : string)
    (conversation : option conversation_names) (sender : string) : string :=
  match non_empty (existing_name st chatJID) with
  | Some existingName => existingName
  | None =>
      if String.eqb (Server jid) group_server then
        let name :=
          match conversation with
          | None => EmptyString
          | Some (displayName, convName) =>
              match non_empty displayName with
              | Some dn => dn
              | None =>
                  match non_empty convName with
                  | Some n => n
                  | None => EmptyString
                  end
              end
          end in
        if String.eqb name EmptyString then
          match non_empty (GetGroupInfo jid) with
          | Some groupName => groupName
          | None => String.append group_prefix (User jid)
          end
        else name
      else
        match non_empty (GetContact jid) with
        | Some fullName => fullName
        | None =>
            if negb (String.eqb sender EmptyString) then sender else User jid
        end
  end.



End Handlers.

End Live.

(** * Sender names, chat listings and direct paths *)

Module Listings.
Import Store Query.

Definition at_sign : string := "@".

(** [senderJID[:idx]] when [strings.Index(senderJID, "@")] is positive. *)
Definition phone_part (senderJID : string) : string :=
  match String.index 0 at_sign senderJID with
  | Some idx =>
      if 0 <? idx then String.substring 0 idx senderJID else senderJID
  | None => senderJID
  end.

Definition like_pattern (s : string) : string :=
  String.append percent (String.append s percent).


Definition chat_desc (a b : Chat) : Prop :=
  (LastMessageTime b <= LastMessageTime a)%Z.

#[global] Instance chat_desc_dec : RelDecision chat_desc :=
  fun a b => Z_le_dec (LastMessageTime b) (LastMessageTime a).

Definition joined_chat : Type := (chat_row * option message_row)%type.

Definition joined_time_desc (a b : joined_chat) : Prop :=
  (c_last_message_time (fst b) <= c_last_message_time (fst a))%Z.

#[global] Instance joined_time_desc_dec : RelDecision joined_time_desc :=
  fun a b =>
    Z_le_dec (c_last_message_time (fst b)) (c_last_message_time (fst a)).

Definition sort_by_name : string := "name".

Section Engine.

Variable isPostgres : bool.
Variable sql_like : string -> string -> bool.
Variable sql_lower : string -> string.

(** The engine's order on names for [ORDER BY c.name ASC]. *)
Variable name_leb : string -> string -> bool.

Definition joined_name_asc (a b : joined_chat) : Prop :=
  name_leb (c_name (fst a)) (c_name (fst b)) = true.

#[global] Instance joined_name_asc_dec : RelDecision joined_name_asc :=
  fun a b => bool_dec (name_leb (c_name (fst a)) (c_name (fst b))) true.

(** [GetSenderName]: the name stored for exactly this jid, else the name of
    the first chat whose jid contains the phone part, else the identifier
    itself; an empty name counts as none.  Both dialect branches run the
    same two lookups. *)
Definition GetSenderName (st : db) (senderJID : string) : string :=
  match
    Live.non_empty (option_map c_name (List.find (chat_key senderJID) (chats st)))
  with
  | Some name => name
  | None =>
      match
        Live.non_empty
          (option_map c_name
             (List.find
                (fun c => sql_like (c_jid c)
                            (like_pattern (phone_part senderJID)))
                (chats st)))
      with
      | Some name => name
      | None => senderJID
      end
  end.

(** [ListChats].  [None] stands for [db.Query] reporting an error.  The
    statement always selects columns of [m], so it is only valid with the
    join.  The placeholder of [LIMIT] is numbered [len(args)+1] before the
    limit is appended and that of [OFFSET] [len(args)+2] after it: with
    numbered placeholders the statement then names a parameter beyond the
    arguments passed. *)
Definition ListChats (st : db) (query : option string) (limit page : Z)
    (includeLastMessage : bool) (sortBy : string) : option (list Chat) :=
  let has_query :=
    match query with
    | Some q => negb (String.eqb q EmptyString)
    | None => false
    end in
  let args0 := if has_query then 2 else 0 in
  let limit_placeholder := args0 + 1 in
  let args1 := args0 + 1 in
  let offset_placeholder := args1 + 2 in
  let args := args1 + 1 in
  if negb includeLastMessage then None
  else if isPostgres && (args <? Nat.max limit_placeholder offset_placeholder)
  then None
  else
    let matched :=
      List.filter
        (fun r : joined_chat =>
           match query with
           | Some q =>
               if String.eqb q EmptyString then true
               else sql_like (sql_lower (c_name (fst r)))
                      (sql_lower (like_pattern q))
                    || sql_like (c_jid (fst r)) (like_pattern q)
           | None => true
           end)
        (left_join_last_message st) in
    let ordered :=
      if String.eqb sortBy sort_by_name
      then merge_sort joined_name_asc matched
      else merge_sort joined_time_desc matched in
    match sql_offset isPostgres (page * limit) ordered with
    | Err _ => None
    | Ok rows =>
        match sql_limit isPostgres limit rows with
        | Err _ => None
        | Ok rows => Some (map chat_of rows)
        end
    end.


End Engine.

Definition dot_net : string := ".net/".
Definition question_mark : string := "?".
Definition slash : string := "/".

(** [strings.SplitN(s, sep, 2)]: the parts around the first [sep]. *)
Definition split_first (s sep : string) : string * option string :=
  match String.index 0 sep s with
  | Some i =>
      (String.substring 0 i s,
       Some (String.substring (i + String.length sep)
               (String.length s - (i + String.length sep)) s))
  | None => (s, None)
  end.

Definition extractDirectPathFromURL (url : string) : string :=
  match snd (split_first url dot_net) with
  | None => url
  | Some pathPart =>
      String.append slash (fst (split_first pathPart question_mark))
  end.

End Listings.

(** * Further sample data *)

Module MoreSamples.
Import Ogg Store Query History Samples.

(** The one-page buffer as the front of a larger allocation. *)
Definition roomy_page : slice :=
  Slice (arr one_page ++ zeros (Z.to_nat 65310)) (len one_page).

(** Nothing but the four signature bytes. *)
Definition signature_only : slice := of_list OggS.

Definition sample_GetGroupInfo (jid : JID) : option string := None.
Definition sample_GetContact (jid : JID) : option string := None.


Definition sample_stamp : string := "20240101_000000".



Definition alice_jid : JID := MkJID alice "s.whatsapp.net".




Definition sample_name_leb (a b : string) : bool := String.leb a b.

End MoreSamples.

(** * Properties of the container analyzer *)

Section OggFacts.
Import Ogg.

Variable rand_Float64 : Z -> nat -> R.
Variable f64_ceil_quot_u32 : Z -> Z -> Z.

Lemma bytes_eqb_eq (a b : list byte) : bytes_eqb a b = true <-> a = b.
Proof.
  revert b; induction a as [|x a IH]; intros [|y b]; simpl;
    try (split; [discriminate | intros E; discriminate E]);
    try (split; reflexivity).
  rewrite andb_true_iff, IH. split.
  - intros [E ->]. apply Byte.byte_dec_bl in E. now subst.
  - intros E; injection E as -> ->. split; [apply Byte.byte_dec_lb|]; reflexivity.
Qed.







Lemma sum_segments_acc (l : list byte) (a : nat) :
  fold_left (fun acc segLen => acc + Z.to_nat (u8 segLen)) l a
  = a + sum_segments l.
Proof.
  unfold sum_segments. revert a.
  induction l as [|b l IH]; intros a; simpl; [lia|].
  rewrite (IH (a + _)), (IH (Z.to_nat (u8 b))). lia.
Qed.

Lemma page_step_advances (data : slice) (i i' : nat) (st st' : scan_state) :
  page_step data i st = Next i' st' -> i < i' /\ i < len data.
Proof.
  unfold page_step.
  destruct (i <? len data) eqn:E; simpl; [|discriminate].
  apply Nat.ltb_lt in E.
  destruct (len data <=? i + 27); [discriminate|].
  destruct (negb (bytes_eqb (sub (arr data) i (i + 4)) OggS)).
  { intros H; injection H as <- _. lia. }
  match goal with |- context [len data <=? ?x] => destruct (len data <=? x) end;
    [discriminate|].
  match goal with |- context [match ?c with Returned _ => _ | Panic => _ end] =>
    destruct c end; [|discriminate].
  intros H; injection H as <- _. lia.
Qed.

Lemma page_step_past_end (data : slice) (i : nat) (st : scan_state) :
  len data <= i -> page_step data i st = Break st.
Proof.
  intros H. unfold page_step.
  destruct (i <? len data) eqn:E; [apply Nat.ltb_lt in E; lia|reflexivity].
Qed.

(** The loop's fuel is a structural argument only: any amount that covers
    the bytes left to scan gives the same result. *)
Lemma scan_fuel_irrelevant (data : slice) (f1 f2 i : nat) (st : scan_state) :
  len data - i <= f1 -> len data - i <= f2 ->
  scan f1 data i st = scan f2 data i st.
Proof.
  revert f2 i st. induction f1 as [|f1 IH]; intros f2 i st H1 H2.
  - destruct f2 as [|f2]; [reflexivity|].
    cbn [scan]. rewrite page_step_past_end by lia. reflexivity.
  - destruct f2 as [|f2]; cbn [scan].
    + rewrite page_step_past_end by lia. reflexivity.
    + destruct (page_step data i st) as [st'|i' st'|] eqn:E;
        [reflexivity| |reflexivity].
      apply page_step_advances in E. apply IH; lia.
Qed.

(** ** When the call returns

    A panic can only come from slicing a page past the capacity of the
    buffer: a page is at most 27 + 255 + 255 * 255 bytes long and the header
    fields are read at most four bytes past it. *)

Lemma u8_range (b : byte) : (0 <= u8 b <= 255)%Z.
Proof. unfold u8. pose proof (Byte.to_N_bounded b). lia. Qed.

Lemma sum_segments_bound (l : list byte) : sum_segments l <= 255 * length l.
Proof.
  induction l as [|b l IH]; [unfold sum_segments; simpl; lia|].
  unfold sum_segments. cbn [fold_left length]. rewrite sum_segments_acc.
  pose proof (u8_range b). lia.
Qed.

Lemma sub_length (a : list byte) (lo hi : nat) : length (sub a lo hi) <= hi - lo.
Proof. unfold sub. rewrite length_firstn. lia. Qed.

Lemma read_head_returns (data : slice) (i pageSize : nat) (st : scan_state) :
  i + pageSize + 4 <= cap data ->
  exists st', read_head data i pageSize st = Returned st'.
Proof.
  intros H. unfold read_head.
  destruct (cap data <? i + pageSize) eqn:E1;
    [apply Nat.ltb_lt in E1; lia|].
  destruct (bytes_Index _ OpusHead) as [headPos|]; [|eauto].
  destruct (headPos + 12 <? pageSize); [|eauto].
  destruct (headPos + 8 + 12 <=? pageSize) eqn:E2; [|eauto].
  apply Nat.leb_le in E2.
  destruct (cap data - i <? headPos + 8 + 16) eqn:E3;
    [apply Nat.ltb_lt in E3; lia|eauto].
Qed.

Lemma page_step_no_crash (data : slice) (i : nat) (st : scan_state) :
  (Z.of_nat (len data) + 65310 <= Z.of_nat (cap data))%Z ->
  page_step data i st <> Crash.
Proof.
  intros Hcap. unfold page_step.
  destruct (i <? len data) eqn:E; simpl; [|discriminate].
  apply Nat.ltb_lt in E.
  destruct (len data <=? i + 27); [discriminate|].
  destruct (negb (bytes_eqb (sub (arr data) i (i + 4)) OggS)); [discriminate|].
  match goal with |- context [len data <=? ?x] => destruct (len data <=? x) end;
    [discriminate|].
  destruct (negb (foundOpusHead st) && _); [|discriminate].
  match goal with
  | |- context [read_head data i ?n st] =>
      destruct (read_head_returns data i n st) as (st' & ->);
        [|discriminate]
  end.
  pose proof (u8_range (index data (i + 26))) as Hn.
  match goal with
  | |- context [sum_segments ?l] =>
      pose proof (sum_segments_bound l) as Hs;
      pose proof (sub_length (arr data) (i + 27)
                    (i + 27 + Z.to_nat (u8 (index data (i + 26))))) as Hl
  end.
  lia.
Qed.

Lemma scan_returns (data : slice) (fuel i : nat) (st : scan_state) :
  (Z.of_nat (len data) + 65310 <= Z.of_nat (cap data))%Z ->
  exists st', scan fuel data i st = Returned st'.
Proof.
  intros Hcap. revert i st. induction fuel as [|fuel IH]; intros i st;
    cbn [scan]; [eauto|].
  pose proof (page_step_no_crash data i st Hcap) as Hc.
  destruct (page_step data i st) as [st'|i' st'|]; [eauto|apply IH|].
  now contradiction Hc.
Qed.

Lemma has_signature_spec (data : slice) :
  has_signature data
  = negb ((len data <? 4) || negb (bytes_eqb (sub (arr data) 0 4) OggS)).
Proof.
  unfold has_signature.
  destruct (len data <? 4), (bytes_eqb _ _); reflexivity.
Qed.

(** What [analyzeOggOpus] returns is one of two shapes. *)
Lemma analyzeOggOpus_cases (data : slice) :
  (has_signature data = false
   /\ analyzeOggOpus rand_Float64 f64_ceil_quot_u32 data
      = Returned (0%Z, [], Some errNotOgg))
  \/ (has_signature data = true
      /\ (analyzeOggOpus rand_Float64 f64_ceil_quot_u32 data = Panic
          \/ exists st,
               scan (len data) data 0 scan_init = Returned st
               /\ analyzeOggOpus rand_Float64 f64_ceil_quot_u32 data
                  = Returned
                      (clamp_duration (raw_duration f64_ceil_quot_u32 data st),
                       placeholderWaveform rand_Float64
                         (clamp_duration
                            (raw_duration f64_ceil_quot_u32 data st)),
                       None))).
Proof.
  unfold analyzeOggOpus. rewrite has_signature_spec.
  destruct ((len data <? 4) || negb (bytes_eqb (sub (arr data) 0 4) OggS));
    simpl; [left; split; reflexivity|right; split; [reflexivity|]].
  destruct (scan (len data) data 0 scan_init) as [st|];
    [right; exists st; split; reflexivity|left; reflexivity].
Qed.


(** X22: with 65310 bytes of spare capacity behind the buffer the call
    always returns: no slice expression of the page scan runs past the
    capacity, whatever the bytes are. *)
Lemma analyzeOggOpus_returns (data : slice) :
  (Z.of_nat (len data) + 65310 <= Z.of_nat (cap data))%Z ->
  exists r, analyzeOggOpus rand_Float64 f64_ceil_quot_u32 data = Returned r.
Proof.
  intros Hcap.
  destruct (analyzeOggOpus_cases data) as [[_ E]|[_ [E|(st & _ & E)]]];
    try (rewrite E; eauto).
  exfalso. unfold analyzeOggOpus in E.
  destruct (_ || _); [discriminate|].
  destruct (scan_returns data (len data) 0 scan_init Hcap) as (st & Hs).
  rewrite Hs in E. discriminate.
Qed.

(** C5 (amended): the analyzer reports an error, with duration 0 and no
    waveform, exactly when the buffer is shorter than 4 bytes or does not
    start with "OggS"; a page table that runs past the end of the buffer
    never makes it report an error. *)
Theorem analyzeOggOpus_error_iff (data : slice) :
  (has_signature data = false <->
   analyzeOggOpus rand_Float64 f64_ceil_quot_u32 data
   = Returned (0%Z, [], Some errNotOgg))
  /\ (forall duration waveform e,
        analyzeOggOpus rand_Float64 f64_ceil_quot_u32 data
        = Returned (duration, waveform, Some e) ->
        has_signature data = false /\ duration = 0%Z /\ waveform = []).
Proof.
  destruct (analyzeOggOpus_cases data) as [[Hno E]|[Hsig [E|(st & _ & E)]]];
    rewrite E; split.
  - split; [reflexivity|intros _; exact Hno].
  - intros d w e H. injection H as <- <- _. auto.
  - split; [congruence|discriminate].
  - discriminate.
  - split; [congruence|discriminate].
  - discriminate.
Qed.


End OggFacts.

(** ** The analyzer on concrete buffers *)

Section OggExamples.
Import Ogg Samples.

Example one_page_analysis :
  analyzeOggOpus rand_half exact_ceil_quot one_page
  = Returned (2%Z, placeholderWaveform rand_half 2, None).
Proof. reflexivity. Qed.

Example one_page'_analysis :
  analyzeOggOpus rand_half exact_ceil_quot one_page'
  = Returned (2%Z, placeholderWaveform rand_half 2, None).
Proof. reflexivity. Qed.

Example too_short_analysis :
  analyzeOggOpus rand_half exact_ceil_quot (of_list (zeros 3))
  = Returned (0%Z, [], Some errNotOgg).
Proof. reflexivity. Qed.

(** Slicing the page data past the capacity aborts the call. *)
Example cut_payload_panics :
  has_signature cut_payload = true
  /\ analyzeOggOpus rand_half exact_ceil_quot cut_payload = Panic.
Proof. split; reflexivity. Qed.


(** C5, as stated, fails: a buffer that starts with "OggS" and whose segment
    table is cut off is analyzed without error. *)
Lemma analyzeOggOpus_cut_table_no_error :
  has_signature cut_table = true
  /\ analyzeOggOpus rand_half exact_ceil_quot cut_table
     = Returned (1%Z, placeholderWaveform rand_half 1, None).
Proof. split; reflexivity. Qed.


End OggExamples.

(** * Properties of the repository *)

Section KeyedTable.
Import Store.

(** A table whose rows carry a key, and the test for one given key. *)
Context {A K : Type} (key : A -> K) (k : K) (same : A -> bool).
Hypothesis same_spec : forall a, same a = true <-> key a = k.

Lemma filter_none (t : list A) :
  existsb same t = false -> List.filter same t = [].
Proof.
  induction t as [|a t IH]; simpl; [reflexivity|].
  destruct (same a); simpl; [discriminate|exact IH].
Qed.

Lemma filter_unique (t : list A) :
  NoDup (map key t) -> existsb same t = true ->
  exists r, List.filter same t = [r] /\ In r t.
Proof.
  induction t as [|a t IH]; simpl; [discriminate|].
  intros Hnd Hex. apply NoDup_cons_iff in Hnd as [Hnotin Hnd].
  destruct (same a) eqn:Ea; simpl in Hex.
  - exists a. split; [|left; reflexivity]. f_equal.
    apply filter_none. destruct (existsb same t) eqn:Et; [|reflexivity].
    exfalso. apply Hnotin. apply existsb_exists in Et as (b & Hb & Eb).
    apply same_spec in Ea, Eb. rewrite Ea, <- Eb. now apply in_map.
  - destruct (IH Hnd Hex) as (r & Hr & Hin). exists r. auto.
Qed.

Lemma find_filter (t : list A) :
  List.find same t = hd_error (List.filter same t).
Proof.
  induction t as [|a t IH]; simpl; [reflexivity|].
  destruct (same a); [reflexivity|exact IH].
Qed.

Lemma filter_negb_twice (t : list A) :
  List.filter (fun r => negb (same r)) (List.filter (fun r => negb (same r)) t)
  = List.filter (fun r => negb (same r)) t.
Proof.
  induction t as [|a t IH]; simpl; [reflexivity|].
  destruct (same a) eqn:E; simpl; [exact IH|]. rewrite E. simpl. now f_equal.
Qed.

Lemma filter_same_negb (t : list A) :
  List.filter same (List.filter (fun r => negb (same r)) t) = [].
Proof.
  induction t as [|a t IH]; simpl; [reflexivity|].
  destruct (same a) eqn:E; simpl; [exact IH|]. now rewrite E.
Qed.

Variable row : A.
Hypothesis row_key : key row = k.

Lemma same_row : same row = true.
Proof. now apply same_spec. Qed.

Lemma replace_filter_same (t : list A) :
  List.filter same (insert_or_replace same row t) = [row].
Proof.
  unfold insert_or_replace.
  rewrite List.filter_app, filter_same_negb. simpl. now rewrite same_row.
Qed.

Lemma replace_filter_other (t : list A) :
  List.filter (fun r => negb (same r)) (insert_or_replace same row t)
  = List.filter (fun r => negb (same r)) t.
Proof.
  unfold insert_or_replace.
  rewrite List.filter_app, filter_negb_twice. simpl.
  rewrite same_row. simpl. apply app_nil_r.
Qed.

Lemma replace_keys (t : list A) :
  NoDup (map key t) -> NoDup (map key (insert_or_replace same row t)).
Proof.
  intros Hnd. unfold insert_or_replace.
  rewrite map_app. simpl.
  assert (Hsub : forall l, NoDup (map key l) ->
            NoDup (map key (List.filter (fun r => negb (same r)) l))
            /\ ~ In k (map key (List.filter (fun r => negb (same r)) l))).
  { induction l as [|a l IH]; simpl; intros H.
    - split; [constructor|tauto].
    - apply NoDup_cons_iff in H as [Hn H]. destruct (IH H) as [IH1 IH2].
      destruct (same a) eqn:E; simpl; [auto|]. split.
      + constructor; [|exact IH1]. intros Hin. apply Hn.
        apply in_map_iff in Hin as (b & Eb & Hb).
        apply List.filter_In in Hb as [Hb _]. rewrite <- Eb. now apply in_map.
      + intros [Ek|Hin]; [|tauto].
        apply same_spec in Ek. congruence. }
  destruct (Hsub t Hnd) as [H1 H2].
  apply NoDup_app; [exact H1|constructor; [simpl; tauto|constructor]|].
  intros x Hx [<-|[]]. now rewrite row_key in Hx.
Qed.

Lemma update_map_keys (t : list A) :
  map key (map (fun r => if same r then row else r) t) = map key t.
Proof.
  induction t as [|a t IH]; simpl; [reflexivity|]. f_equal; [|exact IH].
  destruct (same a) eqn:E; [|reflexivity].
  apply same_spec in E. congruence.
Qed.

Lemma update_filter_same (t : list A) :
  NoDup (map key t) ->
  List.filter same (insert_on_conflict_update same row t) = [row].
Proof.
  intros Hnd. unfold insert_on_conflict_update.
  destruct (existsb same t) eqn:Ex.
  - set (t' := map (fun r => if same r then row else r) t).
    assert (Hnd' : NoDup (map key t'))
      by (unfold t'; now rewrite update_map_keys).
    assert (Hex' : existsb same t' = true).
    { apply existsb_exists in Ex as (a & Ha & Ea).
      apply existsb_exists. exists row. split; [|apply same_row].
      unfold t'. apply in_map_iff. exists a. now rewrite Ea. }
    destruct (filter_unique t' Hnd' Hex') as (r & Hr & Hin).
    rewrite Hr. f_equal.
    assert (Hsr : same r = true).
    { assert (H : In r (List.filter same t')) by (rewrite Hr; now left).
      now apply filter_In in H. }
    unfold t' in Hin. apply in_map_iff in Hin as (a & Ea & _).
    destruct (same a) eqn:E; congruence.
  - rewrite filter_app, (filter_none t Ex). simpl. now rewrite same_row.
Qed.

Lemma update_filter_other (t : list A) :
  List.filter (fun r => negb (same r)) (insert_on_conflict_update same row t)
  = List.filter (fun r => negb (same r)) t.
Proof.
  unfold insert_on_conflict_update. destruct (existsb same t).
  - induction t as [|a t IH]; simpl; [reflexivity|].
    destruct (same a) eqn:E; simpl.
    + rewrite same_row. simpl. exact IH.
    + rewrite E. simpl. now f_equal.
  - rewrite filter_app. simpl. rewrite same_row. simpl. apply app_nil_r.
Qed.

Lemma update_keys (t : list A) :
  NoDup (map key t) ->
  NoDup (map key (insert_on_conflict_update same row t)).
Proof.
  intros Hnd. unfold insert_on_conflict_update.
  destruct (existsb same t) eqn:Ex.
  - now rewrite update_map_keys.
  - rewrite map_app. simpl.
    apply NoDup_app; [exact Hnd|constructor; [simpl; tauto|constructor]|].
    intros x Hx [<-|[]]. rewrite row_key in Hx.
    apply in_map_iff in Hx as (a & Ea & Ha).
    assert (H : existsb same t = true)
      by (apply existsb_exists; exists a; split; [exact Ha|now apply same_spec]).
    congruence.
Qed.

Lemma replace_twice (t : list A) :
  insert_or_replace same row (insert_or_replace same row t)
  = insert_or_replace same row t.
Proof.
  unfold insert_or_replace at 1 2.
  change (List.filter (fun r => negb (same r))
            (List.filter (fun r => negb (same r)) t ++ [row]))
    with (List.filter (fun r => negb (same r)) (insert_or_replace same row t)).
  now rewrite replace_filter_other.
Qed.

Lemma update_twice (t : list A) :
  insert_on_conflict_update same row (insert_on_conflict_update same row t)
  = insert_on_conflict_update same row t.
Proof.
  assert (Hid : forall l,
            map (fun r => if same r then row else r)
              (map (fun r => if same r then row else r) l)
            = map (fun r => if same r then row else r) l).
  { induction l as [|a l IH]; simpl; [reflexivity|]. f_equal; [|exact IH].
    destruct (same a) eqn:E; [now rewrite same_row|now rewrite E]. }
  unfold insert_on_conflict_update.
  destruct (existsb same t) eqn:Ex.
  - replace (existsb same (map (fun r => if same r then row else r) t))
      with true; [apply Hid|].
    symmetry. apply existsb_exists in Ex as (a & Ha & Ea).
    apply existsb_exists. exists row. split; [|apply same_row].
    apply in_map_iff. exists a. now rewrite Ea.
  - rewrite existsb_app. simpl. rewrite same_row, orb_true_r.
    rewrite map_app. simpl. rewrite same_row. f_equal.
    clear Hid. induction t as [|a t IH]; simpl in *; [reflexivity|].
    apply orb_false_iff in Ex as [Ea Et]. rewrite Ea. f_equal. now apply IH.
Qed.

End KeyedTable.

Section StoreFacts.
Import Store.

Variable isPostgres : bool.

Lemma message_key_spec (id chatJID : string) (m : message_row) :
  message_key id chatJID m = true <-> (m_id m, m_chat_jid m) = (id, chatJID).
Proof.
  unfold message_key. rewrite andb_true_iff, !String.eqb_eq.
  split; [intros [-> ->]; reflexivity|intros E; injection E; auto].
Qed.

Lemma chat_key_spec (jid : string) (c : chat_row) :
  chat_key jid c = true <-> c_jid c = jid.
Proof. unfold chat_key. apply String.eqb_eq. Qed.

Section Upsert.
Context {A K : Type} (key : A -> K) (k : K) (same : A -> bool).
Hypothesis same_spec : forall a, same a = true <-> key a = k.
Variable row : A.
Hypothesis row_key : key row = k.

Lemma upsert_filter_same (t : list A) :
  NoDup (map key t) -> List.filter same (upsert isPostgres same row t) = [row].
Proof.
  intros Hnd. unfold upsert. destruct isPostgres.
  - now apply (update_filter_same key k).
  - now apply (replace_filter_same key k).
Qed.

Lemma upsert_filter_other (t : list A) :
  List.filter (fun r => negb (same r)) (upsert isPostgres same row t)
  = List.filter (fun r => negb (same r)) t.
Proof.
  unfold upsert. destruct isPostgres.
  - now apply (update_filter_other key k).
  - now apply (replace_filter_other key k).
Qed.

Lemma upsert_keys (t : list A) :
  NoDup (map key t) -> NoDup (map key (upsert isPostgres same row t)).
Proof.
  intros Hnd. unfold upsert. destruct isPostgres.
  - now apply (update_keys key k).
  - now apply (replace_keys key k).
Qed.

Lemma upsert_twice (t : list A) :
  upsert isPostgres same row (upsert isPostgres same row t)
  = upsert isPostgres same row t.
Proof.
  unfold upsert. destruct isPostgres.
  - now apply (update_twice key k).
  - now apply (replace_twice key k).
Qed.

(** Membership after an upsert, through the two filters. *)
Lemma upsert_In (t : list A) (a : A) :
  NoDup (map key t) ->
  In a (upsert isPostgres same row t)
  <-> a = row \/ (In a t /\ same a = false).
Proof.
  intros Hnd. split.
  - intros Hin. destruct (same a) eqn:E.
    + left. assert (H : In a (List.filter same (upsert isPostgres same row t)))
        by (apply filter_In; auto).
      rewrite upsert_filter_same in H by exact Hnd.
      destruct H as [<-|[]]; reflexivity.
    + right. split; [|reflexivity].
      assert (H : In a (List.filter (fun r => negb (same r))
                          (upsert isPostgres same row t)))
        by (apply filter_In; rewrite E; auto).
      rewrite upsert_filter_other in H. now apply filter_In in H.
  - intros [->|[Hin E]].
    + assert (H : In row (List.filter same (upsert isPostgres same row t)))
        by (rewrite upsert_filter_same by exact Hnd; now left).
      now apply filter_In in H.
    + assert (H : In a (List.filter (fun r => negb (same r))
                          (upsert isPostgres same row t))).
      { rewrite upsert_filter_other. apply filter_In. rewrite E. auto. }
      now apply filter_In in H.
Qed.

End Upsert.

Lemma has_chat_In (st : db) (jid : string) :
  has_chat st jid = true <-> exists c, In c (chats st) /\ c_jid c = jid.
Proof.
  unfold has_chat. rewrite existsb_exists.
  split; intros (c & Hc & E); exists c; split; auto; now apply chat_key_spec.
Qed.

Lemma empty_db_wf : db_wf empty_db.
Proof.
  repeat split; try constructor. intros m [].
Qed.

Lemma StoreChat_wf (st : db) (jid name : string) (t : time) :
  db_wf st -> db_wf (fst (StoreChat isPostgres st jid name t)).
Proof.
  intros (Hc & Hm & Hfk). unfold StoreChat, db_wf, chat_pk, message_pk,
    foreign_key. simpl. split; [|split; [exact Hm|]].
  - apply (upsert_keys c_jid jid); [apply chat_key_spec|reflexivity|exact Hc].
  - intros m Hin. specialize (Hfk m Hin).
    apply has_chat_In in Hfk as (c & Hcin & Ec).
    apply has_chat_In. simpl.
    destruct (chat_key jid c) eqn:E.
    + exists (ChatRow jid name t). split.
      * apply (upsert_In c_jid jid); auto using chat_key_spec.
      * apply chat_key_spec in E. simpl. congruence.
    + exists c. split; [|exact Ec].
      apply (upsert_In c_jid jid); auto using chat_key_spec.
Qed.

Lemma StoreMessage_wf (st : db) (r : message_row) :
  db_wf st -> db_wf (fst (StoreMessage_row isPostgres st r)).
Proof.
  intros (Hc & Hm & Hfk). unfold StoreMessage_row, StoreMessage.
  destruct (_ && _); [now repeat split|].
  destruct (has_chat st (m_chat_jid r)) eqn:Hch; [|now repeat split].
  unfold db_wf, chat_pk, message_pk, foreign_key. simpl.
  split; [exact Hc|]. split.
  - apply (upsert_keys (fun m => (m_id m, m_chat_jid m))
             (m_id r, m_chat_jid r));
      [apply message_key_spec|reflexivity|exact Hm].
  - intros m Hin.
    apply (upsert_In (fun m => (m_id m, m_chat_jid m))
             (m_id r, m_chat_jid r)) in Hin;
      [|apply message_key_spec|reflexivity|exact Hm].
    destruct Hin as [->|[Hin _]]; [exact Hch|].
    exact (Hfk m Hin).
Qed.

Lemma StoreMediaInfo_wf (st : db) (id chatJID url : string)
    (mediaKey fileSHA256 fileEncSHA256 : list byte) (fileLength : Z) :
  db_wf st ->
  db_wf (fst (StoreMediaInfo st id chatJID url mediaKey fileSHA256
                fileEncSHA256 fileLength)).
Proof.
  intros (Hc & Hm & Hfk). unfold StoreMediaInfo, db_wf, chat_pk, message_pk,
    foreign_key. simpl. split; [exact Hc|]. split.
  - rewrite map_map.
    erewrite map_ext; [exact Hm|].
    intros m. simpl. now destruct (message_key id chatJID m).
  - intros m Hin. apply in_map_iff in Hin as (m0 & E & Hin).
    specialize (Hfk m0 Hin). unfold has_chat in *. simpl.
    destruct (message_key id chatJID m0); subst m; exact Hfk.
Qed.

Lemma GetMediaInfo_absent (st : db) (id chatJID : string) :
  has_message st id chatJID = false ->
  GetMediaInfo st id chatJID
  = ((EmptyString, EmptyString, EmptyString, [], [], [], 0%Z), Some ErrNoRows).
Proof.
  intros H. unfold GetMediaInfo.
  rewrite (find_filter (message_key id chatJID)).
  rewrite filter_none by exact H. reflexivity.
Qed.

(** C1: with empty content and empty media type [StoreMessage] returns
    success and writes nothing: the store is unchanged, and when it held no
    row for (id, chatJID) the lookup by that key still fails with
    [sql.ErrNoRows]. *)
Theorem StoreMessage_empty_is_noop (st : db) (id chatJID sender : string)
    (timestamp : time) (isFromMe : bool) (filename url : string)
    (mediaKey fileSHA256 fileEncSHA256 : list byte) (fileLength : Z) :
  has_message st id chatJID = false ->
  let r :=
    StoreMessage isPostgres st id chatJID sender EmptyString timestamp
      isFromMe EmptyString filename url mediaKey fileSHA256 fileEncSHA256
      fileLength in
  snd r = None
  /\ fst r = st
  /\ messages (fst r) = messages st
  /\ GetMediaInfo (fst r) id chatJID
     = ((EmptyString, EmptyString, EmptyString, [], [], [], 0%Z),
        Some ErrNoRows).
Proof.
  intros H r. subst r. unfold StoreMessage. simpl.
  repeat split. now apply GetMediaInfo_absent.
Qed.


End StoreFacts.

(** * Properties of the query engine *)

Section QueryFacts.
Import Store Query.

Variable isPostgres : bool.
Variable sql_like : string -> string -> bool.
Variable sql_lower : string -> string.
Variable parse_RFC3339 : string -> option time.
Variable FormatMessage : db -> MessageInteraction -> bool -> string.

#[local] Instance ts_desc_total : Total ts_desc.
Proof. intros a b. unfold ts_desc. lia. Qed.

#[local] Instance ts_asc_total : Total ts_asc.
Proof. intros a b. unfold ts_asc. lia. Qed.

#[local] Instance ts_desc_trans : Transitive ts_desc.
Proof. intros a b c. unfold ts_desc. lia. Qed.

#[local] Instance ts_asc_trans : Transitive ts_asc.
Proof. intros a b c. unfold ts_asc. lia. Qed.

(** ** The join, on a well-formed store *)

Lemma join_chats_In (st : db) (j : joined) :
  In j (join_chats st) ->
  In (fst j) (messages st) /\ In (snd j) (chats st)
  /\ c_jid (snd j) = m_chat_jid (fst j).
Proof.
  unfold join_chats. rewrite in_flat_map. intros (m & Hm & Hj).
  apply in_map_iff in Hj as (c & <- & Hc). apply filter_In in Hc as [Hc E].
  simpl. apply chat_key_spec in E. auto.
Qed.





(** ** Ordering and limits *)

Lemma firstn_In {A : Type} (n : nat) (l : list A) (x : A) :
  In x (firstn n l) -> In x l.
Proof.
  revert n. induction l as [|a l IH]; intros [|n]; simpl; try tauto.
  intros [->|H]; [now left|right; exact (IH n H)].
Qed.

Lemma StronglySorted_firstn {A : Type} (R : A -> A -> Prop) (n : nat)
    (l : list A) :
  StronglySorted R l -> StronglySorted R (firstn n l).
Proof.
  intros H. revert n. induction H as [|a l Hs IH Hall]; intros [|n]; simpl;
    try constructor; [apply IH|].
  apply List.Forall_forall. intros x Hx.
  apply (proj1 (List.Forall_forall _ _) Hall). eapply firstn_In; exact Hx.
Qed.

Lemma StronglySorted_map {A B : Type} (R : A -> A -> Prop)
    (S : B -> B -> Prop) (f : A -> B) (l : list A) :
  (forall x y, R x y -> S (f x) (f y)) ->
  StronglySorted R l -> StronglySorted S (map f l).
Proof.
  intros Hf H. induction H as [|a l Hs IH Hall]; simpl; constructor;
    [exact IH|].
  apply List.Forall_forall. intros y Hy. apply in_map_iff in Hy as (x & <- & Hx).
  apply Hf. exact (proj1 (List.Forall_forall _ _) Hall x Hx).
Qed.

Lemma sql_limit_nonneg {A : Type} (n : Z) (rows : list A) :
  (0 <= n)%Z -> sql_limit isPostgres n rows = Ok (firstn (Z.to_nat n) rows).
Proof.
  intros H. unfold sql_limit.
  destruct (n <? 0)%Z eqn:E; [apply Z.ltb_lt in E; lia|reflexivity].
Qed.







(** ** The anchor lookup *)







End QueryFacts.

Section ListFacts.
Import Store Query.

Variable isPostgres : bool.
Variable sql_like : string -> string -> bool.
Variable sql_lower : string -> string.
Variable parse_RFC3339 : string -> option time.
Variable FormatMessage : db -> MessageInteraction -> bool -> string.

Lemma skipn_In {A : Type} (n : nat) (l : list A) (x : A) :
  In x (skipn n l) -> In x l.
Proof.
  revert n. induction l as [|a l IH]; intros [|n]; simpl; try tauto.
  intros H. right. exact (IH n H).
Qed.









Lemma filter_all_false {A : Type} (f : A -> bool) (l : list A) :
  (forall x, In x l -> f x = false) -> List.filter f l = [].
Proof.
  induction l as [|a l IH]; simpl; intros H; [reflexivity|].
  rewrite (H a) by now left. apply IH. intros x Hx. apply H. now right.
Qed.

Lemma left_join_In (st : db) (r : chat_row * option message_row) :
  In r (left_join_last_message st) -> In (fst r) (chats st).
Proof.
  unfold left_join_last_message. rewrite in_flat_map.
  intros (c & Hc & Hr).
  destruct (List.filter _ (messages st)) as [|m ms].
  - destruct Hr as [<-|[]]. exact Hc.
  - apply in_map_iff in Hr as (m' & <- & _). exact Hc.
Qed.

(** C7: on a lookup that matches no row, [GetChat] returns a nil chat and
    no error and [GetLastInteraction] the empty string and no error, but
    [GetDirectChatByContact] hands [sql.ErrNoRows] back to its caller. *)
Theorem point_lookups_without_a_row (st : db) (jid phone : string) :
  (has_chat st jid = false ->
   GetChat st jid true = Ok None)
  /\ ((forall m, In m (messages st) ->
                 m_sender m <> jid /\ m_chat_jid m <> jid) ->
      GetLastInteraction FormatMessage st jid = Ok EmptyString)
  /\ ((forall c, In c (chats st) ->
         sql_like (c_jid c)
           (String.append percent (String.append phone percent))
         && negb (sql_like (c_jid c) group_suffix) = false) ->
      GetDirectChatByContact sql_like st phone = Err ErrNoRows).
Proof.
  split; [|split].
  - intros H. unfold GetChat. simpl.
    destruct (List.find (fun r => String.eqb (c_jid (fst r)) jid)
                (left_join_last_message st)) as [r|] eqn:E; [|reflexivity].
    apply find_some in E as [Hin Er]. apply left_join_In in Hin.
    assert (Hex : has_chat st jid = true)
      by (apply existsb_exists; exists (fst r); auto).
    congruence.
  - intros H. unfold GetLastInteraction.
    replace (List.filter
               (fun j : joined => String.eqb (m_sender (fst j)) jid
                                  || String.eqb (c_jid (snd j)) jid)
               (join_chats st)) with (@nil joined); [reflexivity|].
    symmetry. apply filter_all_false. intros j Hj.
    apply join_chats_In in Hj as (Hm & _ & Ec).
    destruct (H _ Hm) as [Hs Hc].
    apply orb_false_iff. split; apply String.eqb_neq; congruence.
  - intros H. unfold GetDirectChatByContact.
    match goal with
    | |- context [List.find ?f (left_join_last_message st)] =>
        destruct (List.find f (left_join_last_message st)) as [r|] eqn:E
    end; [|reflexivity].
    apply find_some in E as [Hin Er]. apply left_join_In in Hin.
    rewrite (H _ Hin) in Er. discriminate.
Qed.

End ListFacts.

(** * Properties of the history reconciler *)

Section HistoryFacts.
Import Store History.

Variable isPostgres : bool.
Variable ParseJID : string -> option JID.
Variable GetChatName : db -> JID -> string -> ConversationEntry -> string.
Variable ownUser : string.
Variable now_stamp : string.

Lemma StoreMessage_chats (st : db) (id chatJID sender content : string)
    (timestamp : time) (isFromMe : bool) (mediaType filename url : string)
    (mediaKey fileSHA256 fileEncSHA256 : list byte) (fileLength : Z) :
  chats (fst (StoreMessage isPostgres st id chatJID sender content timestamp
                isFromMe mediaType filename url mediaKey fileSHA256
                fileEncSHA256 fileLength))
  = chats st.
Proof.
  unfold StoreMessage.
  destruct (_ && _); [reflexivity|].
  destruct (has_chat st chatJID); reflexivity.
Qed.

Lemma store_history_message_chats (chatJID : string) (jid : JID)
    (acc : db * nat) (msg : HistorySyncMsg) :
  chats (fst (store_history_message isPostgres ownUser now_stamp chatJID jid
                acc msg))
  = chats (fst acc).
Proof.
  unfold store_history_message.
  destruct (web_message msg) as [w|]; [|reflexivity].
  destruct (extractMediaInfo now_stamp (Message w))
    as [[[[[[mediaType filename] url] mediaKey] sha] enc] flen].
  destruct (_ && _); [reflexivity|].
  destruct (history_sender ownUser jid w) as [sender isFromMe].
  destruct (MessageTimestamp w =? 0)%Z; [reflexivity|].
  match goal with
  | |- context [StoreMessage ?p ?s ?a ?b ?c ?d ?e ?f ?g ?h ?i ?j ?k ?l ?m] =>
      pose proof (StoreMessage_chats s a b c d e f g h i j k l m) as H;
      destruct (StoreMessage p s a b c d e f g h i j k l m) as [st' [e'|]]
  end; exact H.
Qed.

Lemma fold_history_messages_chats (chatJID : string) (jid : JID)
    (msgs : list HistorySyncMsg) (acc : db * nat) :
  chats (fst (fold_left
                (store_history_message isPostgres ownUser now_stamp chatJID jid)
                msgs acc))
  = chats (fst acc).
Proof.
  revert acc. induction msgs as [|msg msgs IH]; intros acc; simpl;
    [reflexivity|].
  now rewrite IH, store_history_message_chats.
Qed.

(** C8 (amended): a conversation is persisted with the timestamp of the
    first entry of its message list, the entry the code takes for the
    latest; when that entry is nil or carries no timestamp, and so whenever
    no message of the conversation carries one, the conversation is skipped
    entirely: neither a chat row nor a message is written. *)
Theorem handleConversation_chat_timestamp (acc : db * nat)
    (conversation : ConversationEntry) :
  (forall chatJID jid latest rest w,
     chat_pk (fst acc) ->
     conv_ID conversation = Some chatJID ->
     ParseJID chatJID = Some jid ->
     Messages conversation = latest :: rest ->
     web_message latest = Some w ->
     MessageTimestamp w <> 0%Z ->
     List.filter (chat_key chatJID)
       (chats (fst (handleConversation isPostgres ParseJID GetChatName
                      ownUser now_stamp acc conversation)))
     = [ChatRow chatJID (GetChatName (fst acc) jid chatJID conversation)
          (MessageTimestamp w)])
  /\ (forall latest rest,
        Messages conversation = latest :: rest ->
        (forall w, web_message latest = Some w -> MessageTimestamp w = 0%Z) ->
        handleConversation isPostgres ParseJID GetChatName ownUser now_stamp
          acc conversation = acc)
  /\ ((forall msg w, In msg (Messages conversation) ->
                     web_message msg = Some w -> MessageTimestamp w = 0%Z) ->
      handleConversation isPostgres ParseJID GetChatName ownUser now_stamp
        acc conversation = acc).
Proof.
  assert (Hskip : forall latest rest,
            Messages conversation = latest :: rest ->
            (forall w, web_message latest = Some w ->
                       MessageTimestamp w = 0%Z) ->
            handleConversation isPostgres ParseJID GetChatName ownUser
              now_stamp acc conversation = acc).
  { intros latest rest Hm Hts. unfold handleConversation.
    destruct (conv_ID conversation) as [chatJID|]; [|reflexivity].
    destruct (ParseJID chatJID) as [jid|]; [|reflexivity].
    rewrite Hm. destruct (web_message latest) as [w|]; [|reflexivity].
    now rewrite (Hts w eq_refl). }
  split; [|split; [exact Hskip|]].
  - intros chatJID jid latest rest w Hpk Hid Hjid Hm Hw Hts.
    unfold handleConversation. rewrite Hid, Hjid, Hm, Hw.
    apply Z.eqb_neq in Hts. rewrite Hts.
    rewrite fold_history_messages_chats. simpl.
    apply (upsert_filter_same isPostgres c_jid chatJID);
      [apply chat_key_spec|reflexivity|exact Hpk].
  - intros Hall. destruct (Messages conversation) as [|latest rest] eqn:Hm.
    + unfold handleConversation.
      destruct (conv_ID conversation) as [chatJID|]; [|reflexivity].
      destruct (ParseJID chatJID) as [jid|]; [|reflexivity].
      now rewrite Hm.
    + apply (Hskip latest rest eq_refl). intros w Hw.
      apply (Hall latest w); [now left|exact Hw].
Qed.

End HistoryFacts.

(** * The theorems at concrete inputs *)

Section Instances.
Import Ogg Store Query History Samples.

Ltac distinct_keys :=
  repeat (constructor; [cbv; intuition discriminate|]); constructor.

Lemma sample_db_wf : db_wf sample_db.
Proof.
  repeat split.
  - unfold chat_pk. simpl. distinct_keys.
  - unfold message_pk. simpl. distinct_keys.
  - intros m H. simpl in H.
    repeat (destruct H as [<-|H]; [reflexivity|]). contradiction.
Qed.

Lemma StoreMessage_empty_is_noop_witness :
  let r :=
    StoreMessage false sample_db "m9" alice "111" EmptyString 400%Z false
      EmptyString EmptyString EmptyString [] [] [] 0%Z in
  snd r = None
  /\ fst r = sample_db
  /\ messages (fst r) = messages sample_db
  /\ GetMediaInfo (fst r) "m9" alice
     = ((EmptyString, EmptyString, EmptyString, [], [], [], 0%Z),
        Some ErrNoRows).
Proof.
  apply (StoreMessage_empty_is_noop false sample_db "m9" alice "111" 400%Z
           false EmptyString EmptyString [] [] [] 0%Z).
  reflexivity.
Defined.




(** The anchor of "m2" is bob's row, the first in scan order, although
    alice's chat holds the same id. *)
Example GetMessageContext_m2 :
  GetMessageContext false sample_db "m2" 1 1
  = Ok (MkContext (interaction (bob_m2, ChatRow bob "Bob" 250%Z)) []
          [interaction (bob_m4, ChatRow bob "Bob" 250%Z)]).
Proof. reflexivity. Qed.



Lemma point_lookups_without_a_row_witness :
  GetChat sample_db "999@s.whatsapp.net" true = Ok None
  /\ GetLastInteraction sample_format sample_db "999@s.whatsapp.net"
     = Ok EmptyString
  /\ GetDirectChatByContact sample_like sample_db "999" = Err ErrNoRows.
Proof.
  destruct (point_lookups_without_a_row sample_like sample_format sample_db
              "999@s.whatsapp.net" "999") as (H1 & H2 & H3).
  split; [apply H1; reflexivity|]. split.
  - apply H2. intros m H. simpl in H.
    repeat (destruct H as [<-|H]; [split; discriminate|]). contradiction.
  - apply H3. intros c H. simpl in H.
    repeat (destruct H as [<-|H]; [reflexivity|]). contradiction.
Defined.

Lemma handleConversation_chat_timestamp_witness :
  List.filter (chat_key alice)
    (chats (fst (handleConversation false sample_ParseJID sample_name "me"
                   "stamp" (empty_db, 0) oldest_first)))
  = [ChatRow alice alice 100%Z]
  /\ handleConversation true sample_ParseJID sample_name "me" "stamp"
       (sample_db, 0) no_timestamps = (sample_db, 0).
Proof.
  destruct (handleConversation_chat_timestamp false sample_ParseJID
              sample_name "me" "stamp" (empty_db, 0) oldest_first)
    as (H1 & _).
  destruct (handleConversation_chat_timestamp true sample_ParseJID
              sample_name "me" "stamp" (sample_db, 0) no_timestamps)
    as (_ & _ & H3).
  split.
  - apply (H1 alice (MkJID alice "s.whatsapp.net")
             (history_text "h1" "older" 100%Z)
             [history_text "h2" "newer" 200%Z]
             (MkInfo (Some (MkKey (Some false) None (Some "h1"%string)))
                (Some (MkE2E "older" None None None None None)) 100%Z));
      try reflexivity; [constructor|discriminate].
  - apply H3. intros msg w H. simpl in H.
    destruct H as [<-|[<-|[]]]; intros E; injection E as <-; reflexivity.
Defined.

(** C8, as stated, fails: the conversation holds messages at instants 100
    and 200, listed oldest first, and its chat row is written with 100. *)
Lemma handleHistorySync_uses_first_message :
  let r :=
    handleHistorySync false sample_ParseJID sample_name "me" "stamp"
      empty_db [oldest_first] in
  map c_last_message_time (chats (fst r)) = [100%Z]
  /\ map m_timestamp (messages (fst r)) = [100%Z; 200%Z]
  /\ snd r = 2.
Proof. repeat split. Qed.

End Instances.

(** * Further properties of the repository *)

Section RepositoryRoundTrips.
Import Store Query Samples.

Variable isPostgres : bool.

Lemma left_join_covers (st : db) (c : chat_row) :
  In c (chats st) -> exists r, In r (left_join_last_message st) /\ fst r = c.
Proof.
  intros Hc. unfold left_join_last_message.
  destruct (List.filter
              (fun m => String.eqb (c_jid c) (m_chat_jid m)
                        && (c_last_message_time c =? m_timestamp m)%Z)
              (messages st)) as [|m ms] eqn:E.
  - exists (c, None). split; [|reflexivity].
    apply in_flat_map. exists c. split; [exact Hc|]. rewrite E. now left.
  - exists (c, Some m). split; [|reflexivity].
    apply in_flat_map. exists c. split; [exact Hc|]. rewrite E. now left.
Qed.

(** What a row of the left join carries beside its chat: a message of that
    chat dated exactly at the chat's last message time, or nothing when the
    chat has no such message. *)
Lemma left_join_snd (st : db) (r : chat_row * option message_row) :
  In r (left_join_last_message st) ->
  match snd r with
  | Some m =>
      In m (messages st) /\ m_chat_jid m = c_jid (fst r)
      /\ m_timestamp m = c_last_message_time (fst r)
  | None =>
      forall m, In m (messages st) -> m_chat_jid m = c_jid (fst r) ->
                m_timestamp m <> c_last_message_time (fst r)
  end.
Proof.
  unfold left_join_last_message. rewrite in_flat_map. intros (c & Hc & Hr).
  destruct (List.filter
              (fun m => String.eqb (c_jid c) (m_chat_jid m)
                        && (c_last_message_time c =? m_timestamp m)%Z)
              (messages st)) as [|m0 ms] eqn:E.
  - destruct Hr as [<-|[]]. simpl. intros m Hm Ej Et.
    assert (H : In m []).
    { rewrite <- E. apply filter_In. split; [exact Hm|].
      rewrite Ej, Et, String.eqb_refl, Z.eqb_refl. reflexivity. }
    contradiction.
  - apply in_map_iff in Hr as (m & <- & Hm). simpl.
    rewrite <- E in Hm. apply filter_In in Hm as [Hm Hb].
    apply andb_true_iff in Hb as [E1 E2].
    apply String.eqb_eq in E1. apply Z.eqb_eq in E2. auto.
Qed.

(** X1: [StoreChat] is an upsert on the jid: afterwards exactly one chat row
    carries the jid, with the supplied name and time; the other chat rows and
    all messages are untouched, and storing the same values again changes
    nothing. *)
Theorem StoreChat_upserts (st : db) (jid name : string) (t : time) :
  chat_pk st ->
  let r := StoreChat isPostgres st jid name t in
  snd r = None
  /\ List.filter (chat_key jid) (chats (fst r)) = [ChatRow jid name t]
  /\ List.filter (fun c => negb (chat_key jid c)) (chats (fst r))
     = List.filter (fun c => negb (chat_key jid c)) (chats st)
  /\ messages (fst r) = messages st
  /\ fst (StoreChat isPostgres (fst r) jid name t) = fst r.
Proof.
  intros Hpk r. subst r. unfold StoreChat. simpl.
  split; [reflexivity|]. split; [|split; [|split; [reflexivity|]]].
  - apply (upsert_filter_same isPostgres c_jid jid);
      [apply chat_key_spec|reflexivity|exact Hpk].
  - apply (upsert_filter_other isPostgres c_jid jid);
      [apply chat_key_spec|reflexivity].
  - f_equal. apply (upsert_twice isPostgres c_jid jid);
      [apply chat_key_spec|reflexivity].
Qed.

(** X2: what [StoreChat] wrote is what [GetChat] reads: the chat returned
    for the jid carries the stored name and last message time. *)
Theorem StoreChat_then_GetChat (st : db) (jid name : string) (t : time) :
  chat_pk st ->
  exists c,
    GetChat (fst (StoreChat isPostgres st jid name t)) jid true = Ok (Some c)
    /\ JID c = jid /\ Name c = name /\ LastMessageTime c = t.
Proof.
  intros Hpk.
  destruct (StoreChat_upserts st jid name t Hpk) as (_ & Hf & _).
  set (st' := fst (StoreChat isPostgres st jid name t)) in *.
  assert (Hrow : In (ChatRow jid name t) (chats st')).
  { assert (H : In (ChatRow jid name t) (List.filter (chat_key jid) (chats st')))
      by (rewrite Hf; now left).
    now apply filter_In in H. }
  unfold GetChat. simpl.
  destruct (List.find (fun r => String.eqb (c_jid (fst r)) jid)
              (left_join_last_message st')) as [r|] eqn:E.
  - apply find_some in E as [Hin Er].
    apply left_join_In in Hin.
    assert (H : In (fst r) (List.filter (chat_key jid) (chats st')))
      by (apply filter_In; auto).
    rewrite Hf in H. destruct H as [H|[]].
    exists (chat_of r). split; [reflexivity|].
    unfold chat_of. rewrite <- H. destruct (snd r); simpl; auto.
  - destruct (left_join_covers st' _ Hrow) as (r & Hr & Er).
    pose proof (find_none _ _ E r Hr) as Hn. simpl in Hn.
    rewrite Er in Hn. simpl in Hn. now rewrite String.eqb_refl in Hn.
Qed.

(** X3: the chat [GetChat] returns is a stored chat row; its last-message
    fields are those of a message of that chat dated exactly at the chat's
    last message time, and are empty when the chat has no such message. *)
Theorem GetChat_enrichment (st : db) (jid : string) (c : Chat) :
  GetChat st jid true = Ok (Some c) ->
  In (ChatRow jid (Name c) (LastMessageTime c)) (chats st)
  /\ JID c = jid
  /\ ((exists m,
         In m (messages st) /\ m_chat_jid m = jid
         /\ m_timestamp m = LastMessageTime c
         /\ LastMessage c = m_content m /\ LastSender c = m_sender m
         /\ LastIsFromMe c = m_is_from_me m)
      \/ ((forall m, In m (messages st) -> m_chat_jid m = jid ->
                     m_timestamp m <> LastMessageTime c)
          /\ LastMessage c = EmptyString /\ LastSender c = EmptyString
          /\ LastIsFromMe c = false)).
Proof.
  unfold GetChat. simpl.
  destruct (List.find (fun r => String.eqb (c_jid (fst r)) jid)
              (left_join_last_message st)) as [r|] eqn:E; [|discriminate].
  intros H. injection H as <-.
  apply find_some in E as [Hin Er]. apply String.eqb_eq in Er.
  pose proof (left_join_In st r Hin) as Hc.
  pose proof (left_join_snd st r Hin) as Hs.
  destruct r as [row o]. simpl in *. subst jid.
  unfold chat_of. simpl. destruct o as [m|]; simpl.
  - destruct Hs as (Hm & Ej & Et).
    split; [now destruct row|]. split; [reflexivity|].
    left. exists m. auto 10.
  - split; [now destruct row|]. split; [reflexivity|]. right. auto.
Qed.



End RepositoryRoundTrips.

(** * Further properties of the query engine *)

Section QueryMore.
Import Store Query Reads.

Variable isPostgres : bool.
Variable sql_like : string -> string -> bool.
Variable sql_lower : string -> string.
Variable parse_RFC3339 : string -> option time.
Variable FormatMessage : db -> MessageInteraction -> bool -> string.


Lemma ts_desc_sorted (rows : list joined) :
  StronglySorted ts_desc (order_by_timestamp_desc rows).
Proof.
  apply StronglySorted_merge_sort.
  - intros a b c. unfold ts_desc. lia.
  - intros a b. unfold ts_desc. lia.
Qed.




Lemma StronglySorted_head {A : Type} (R : A -> A -> Prop) (a : A)
    (l : list A) (x : A) :
  StronglySorted R (a :: l) -> In x l -> R a x.
Proof.
  intros H Hx. apply StronglySorted_inv in H as [_ Hall].
  exact (proj1 (List.Forall_forall _ _) Hall x Hx).
Qed.

(** X7: when some message was sent by the jid or lies in the chat with
    that jid, [GetLastInteraction] formats one such message whose timestamp
    no other such message exceeds. *)
Theorem GetLastInteraction_latest (st : db) (jid : string) (j0 : joined) :
  In j0 (join_chats st) ->
  m_sender (fst j0) = jid \/ c_jid (snd j0) = jid ->
  exists j,
    In j (join_chats st)
    /\ (m_sender (fst j) = jid \/ c_jid (snd j) = jid)
    /\ (forall j', In j' (join_chats st) ->
                   m_sender (fst j') = jid \/ c_jid (snd j') = jid ->
                   (m_timestamp (fst j') <= m_timestamp (fst j))%Z)
    /\ GetLastInteraction FormatMessage st jid
       = Ok (FormatMessage st (interaction j) true).
Proof.
  intros Hin0 Hm0. unfold GetLastInteraction.
  set (f := fun j : joined => String.eqb (m_sender (fst j)) jid
                              || String.eqb (c_jid (snd j)) jid).
  assert (Hf : forall j, f j = true
                         <-> m_sender (fst j) = jid \/ c_jid (snd j) = jid).
  { intros j. unfold f. rewrite orb_true_iff, !String.eqb_eq. reflexivity. }
  pose proof (ts_desc_sorted (List.filter f (join_chats st))) as Hs.
  pose proof (merge_sort_Permutation ts_desc (List.filter f (join_chats st)))
    as Hperm.
  fold (order_by_timestamp_desc (List.filter f (join_chats st))) in Hperm.
  destruct (order_by_timestamp_desc (List.filter f (join_chats st)))
    as [|j l] eqn:E.
  - assert (H : In j0 []).
    { apply (Permutation_in _ (Permutation_sym Hperm)).
      apply filter_In. split; [exact Hin0|]. now apply Hf. }
    contradiction.
  - exists j.
    assert (Hj : In j (List.filter f (join_chats st)))
      by (apply (Permutation_in _ Hperm); now left).
    apply filter_In in Hj as [Hj1 Hj2].
    split; [exact Hj1|]. split; [now apply Hf|]. split; [|reflexivity].
    intros j' Hin' Hm'.
    assert (Hj' : In j' (j :: l)).
    { apply (Permutation_in _ (Permutation_sym Hperm)).
      apply filter_In. split; [exact Hin'|]. now apply Hf. }
    destruct Hj' as [<-|Hj']; [lia|].
    exact (StronglySorted_head ts_desc j l j' Hs Hj').
Qed.

(** X8: a chat that [GetDirectChatByContact] returns is a stored chat whose
    jid matches the phone pattern and does not match the group pattern. *)
Theorem GetDirectChatByContact_is_direct (st : db) (phone : string)
    (c : Chat) :
  GetDirectChatByContact sql_like st phone = Ok c ->
  In (ChatRow (JID c) (Name c) (LastMessageTime c)) (chats st)
  /\ sql_like (JID c) (String.append percent (String.append phone percent))
     = true
  /\ sql_like (JID c) group_suffix = false.
Proof.
  unfold GetDirectChatByContact.
  match goal with
  | |- context [List.find ?f (left_join_last_message st)] =>
      destruct (List.find f (left_join_last_message st)) as [r|] eqn:E
  end; [|discriminate].
  intros H. injection H as <-.
  apply find_some in E as [Hin Hb]. apply left_join_In in Hin.
  apply andb_true_iff in Hb as [H1 H2]. apply negb_true_iff in H2.
  destruct r as [row o]. unfold chat_of. simpl in *.
  destruct o; simpl; (split; [now destruct row|auto]).
Qed.

(** ** [GetMessages] and [GetChats] *)

Lemma row_ts_desc_sorted (rows : list message_row) :
  StronglySorted row_ts_desc (merge_sort row_ts_desc rows).
Proof.
  apply StronglySorted_merge_sort.
  - intros a b c. unfold row_ts_desc. lia.
  - intros a b. unfold row_ts_desc. lia.
Qed.

(** X9: [GetMessages] with a non-negative limit returns the messages of
    the chat, newest first: as many as the limit allows, each one a stored
    message of that chat. *)
Theorem GetMessages_newest_first (st : db) (chatJID : string) (limit : Z) :
  (0 <= limit)%Z ->
  exists l,
    GetMessages isPostgres st chatJID limit = Ok l
    /\ length l
       = Nat.min (Z.to_nat limit)
           (length (List.filter (fun m => String.eqb (m_chat_jid m) chatJID)
                      (messages st)))
    /\ StronglySorted (fun x y => (msg_Time y <= msg_Time x)%Z) l
    /\ Forall (fun x => exists m, In m (messages st)
                                  /\ m_chat_jid m = chatJID
                                  /\ x = message_of m) l.
Proof.
  intros Hl. unfold GetMessages. rewrite sql_limit_nonneg by exact Hl.
  cbn [bind]. eexists. split; [reflexivity|]. split; [|split].
  - rewrite length_map, length_firstn.
    now rewrite (Permutation_length (merge_sort_Permutation row_ts_desc _)).
  - apply (StronglySorted_map row_ts_desc); [intros x y H; exact H|].
    apply StronglySorted_firstn, row_ts_desc_sorted.
  - apply List.Forall_forall. intros x Hx.
    apply in_map_iff in Hx as (m & <- & Hm). apply firstn_In in Hm.
    apply (Permutation_in _ (merge_sort_Permutation row_ts_desc _)) in Hm.
    apply filter_In in Hm as [Hm E]. apply String.eqb_eq in E. eauto.
Qed.

Lemma fold_insert_lookup (l : list chat_row) (m0 : gmap string time)
    (k : string) :
  NoDup (map c_jid l) ->
  fold_left (fun chats c => <[c_jid c := c_last_message_time c]> chats) l m0
    !! k
  = match List.find (chat_key k) l with
    | Some c => Some (c_last_message_time c)
    | None => m0 !! k
    end.
Proof.
  revert m0. induction l as [|c l IH]; intros m0 Hnd; simpl; [reflexivity|].
  apply NoDup_cons_iff in Hnd as [Hnotin Hnd].
  rewrite IH by exact Hnd.
  destruct (chat_key k c) eqn:E.
  - apply chat_key_spec in E.
    destruct (List.find (chat_key k) l) as [c'|] eqn:F.
    + apply find_some in F as [Hin Ek]. apply chat_key_spec in Ek.
      exfalso. apply Hnotin. rewrite E, <- Ek. now apply in_map.
    + subst k. apply lookup_insert_eq.
  - destruct (List.find (chat_key k) l); [reflexivity|].
    apply lookup_insert_ne. intros Heq.
    apply (proj2 (chat_key_spec k c)) in Heq. congruence.
Qed.

Lemma NoDup_key_inj {A K : Type} (key : A -> K) (l : list A) :
  NoDup (map key l) ->
  forall a b, In a l -> In b l -> key a = key b -> a = b.
Proof.
  induction l as [|x l IH]; simpl; [tauto|]. intros Hnd.
  apply NoDup_cons_iff in Hnd as [Hn Hnd].
  intros a b [->|Ha] [->|Hb] E; auto.
  - exfalso. apply Hn. rewrite E. now apply in_map.
  - exfalso. apply Hn. rewrite <- E. now apply in_map.
Qed.

(** X10: on a table with distinct jids, the map [GetChats] returns holds
    for each stored chat its last message time and has no other key. *)
Theorem GetChats_lookup (st : db) (jid : string) (t : time) :
  chat_pk st ->
  exists m,
    GetChats st = Ok m
    /\ (m !! jid = Some t
        <-> exists name, In (ChatRow jid name t) (chats st)).
Proof.
  intros Hpk. unfold GetChats. eexists. split; [reflexivity|].
  pose proof (merge_sort_Permutation chat_time_desc (chats st)) as Hperm.
  assert (Hnd : NoDup (map c_jid (merge_sort chat_time_desc (chats st)))).
  { eapply Permutation_NoDup; [|exact Hpk].
    apply Permutation_map, Permutation_sym, Hperm. }
  rewrite fold_insert_lookup by exact Hnd. rewrite lookup_empty.
  destruct (List.find (chat_key jid) (merge_sort chat_time_desc (chats st)))
    as [c|] eqn:F.
  - apply find_some in F as [Hin Ek]. apply chat_key_spec in Ek.
    apply (Permutation_in _ Hperm) in Hin. split.
    + intros H. injection H as <-. exists (c_name c). subst jid.
      now destruct c.
    + intros (name & Hrow). f_equal.
      pose proof (NoDup_key_inj c_jid (chats st) Hpk) as Hu.
      rewrite (Hu c (ChatRow jid name t) Hin Hrow Ek). reflexivity.
  - split; [discriminate|]. intros (name & Hrow). exfalso.
    apply (Permutation_in _ (Permutation_sym Hperm)) in Hrow.
    pose proof (find_none _ _ F _ Hrow) as Hn.
    unfold chat_key in Hn. simpl in Hn. now rewrite String.eqb_refl in Hn.
Qed.

End QueryMore.

(** * Properties of the live path and of chat names *)

Section LiveFacts.
Import Store History Live.

Variable isPostgres : bool.
Variable GetGroupInfo : JID -> option string.
Variable GetContact : JID -> option string.
Variable JID_String : JID -> string.
Variable now_stamp : string.

Lemma append_nonempty (a b : string) :
  a <> EmptyString -> String.append a b <> EmptyString.
Proof. destruct a; [congruence|discriminate]. Qed.

(** X11: [extractMediaInfo] reports one of the four media kinds exactly
    when the message carries a payload, image before video before audio
    before document; a message without payload gives the empty descriptor,
    and a media message always gets a non-empty file name. *)
Theorem extractMediaInfo_kinds (msg : option E2EMessage) :
  let '(mediaType, filename, url, mediaKey, fileSHA256, fileEncSHA256,
        fileLength) := extractMediaInfo now_stamp msg in
  (mediaType = EmptyString <->
   match msg with
   | None => True
   | Some m =>
       ImageMessage m = None /\ VideoMessage m = None
       /\ AudioMessage m = None /\ DocumentMessage m = None
   end)
  /\ (mediaType = EmptyString ->
      extractMediaInfo now_stamp msg = no_media)
  /\ (mediaType <> EmptyString ->
      filename <> EmptyString
      /\ (mediaType = "image"%string
          <-> exists m, msg = Some m /\ ImageMessage m <> None)
      /\ (mediaType = "video"%string
          <-> exists m, msg = Some m /\ ImageMessage m = None
                        /\ VideoMessage m <> None)
      /\ (mediaType = "audio"%string
          <-> exists m, msg = Some m /\ ImageMessage m = None
                        /\ VideoMessage m = None /\ AudioMessage m <> None)
      /\ (mediaType = "document"%string
          <-> exists m, msg = Some m /\ ImageMessage m = None
                        /\ VideoMessage m = None /\ AudioMessage m = None
                        /\ DocumentMessage m <> None)).
Proof.
  destruct msg as [m|]; simpl.
  2:{ split; [tauto|]. split; [reflexivity|]. intros H; now contradiction H. }
  destruct m as [conv ext img vid aud doc]; simpl.
  destruct img as [img|]; simpl.
  { split; [split; [discriminate|intros (H & _); discriminate]|].
    split; [discriminate|]. intros _. split; [discriminate|].
    repeat split; try discriminate;
      try (intros (m & E & H); injection E as <-; simpl in *;
           intuition congruence).
    intros _. eexists. split; [reflexivity|discriminate]. }
  destruct vid as [vid|]; simpl.
  { split; [split; [discriminate|intros (_ & H & _); discriminate]|].
    split; [discriminate|]. intros _. split; [discriminate|].
    repeat split; try discriminate;
      try (intros (m & E & H); injection E as <-; simpl in *;
           intuition congruence).
    intros _. eexists. split; [reflexivity|simpl; split; congruence]. }
  destruct aud as [aud|]; simpl.
  { split; [split; [discriminate|intros (_ & _ & H & _); discriminate]|].
    split; [discriminate|]. intros _. split; [discriminate|].
    repeat split; try discriminate;
      try (intros (m & E & H); injection E as <-; simpl in *;
           intuition congruence).
    intros _. eexists. split; [reflexivity|simpl; repeat split; congruence]. }
  destruct doc as [[fn doc]|]; simpl.
  { split; [split; [discriminate|intros (_ & _ & _ & H); discriminate]|].
    split; [discriminate|]. intros _. split.
    - destruct (String.eqb fn EmptyString) eqn:E;
        [discriminate|now apply String.eqb_neq in E].
    - repeat split; try discriminate;
        try (intros (m & E & H); injection E as <-; simpl in *;
             intuition congruence).
      intros _. eexists. split; [reflexivity|simpl; repeat split; congruence]. }
  split; [tauto|]. split; [reflexivity|]. intros H; now contradiction H.
Qed.

Lemma non_empty_Some (o : option string) (s : string) :
  non_empty o = Some s -> o = Some s /\ s <> EmptyString.
Proof.
  destruct o as [x|]; simpl; [|discriminate].
  destruct (String.eqb x EmptyString) eqn:E; [discriminate|].
  intros H; injection H as <-. split; [reflexivity|now apply String.eqb_neq].
Qed.

(** X12: the precedence of [GetChatName].  In the sqlite dialect a
    non-empty name stored for the jid is returned, whatever the sync
    metadata and the client say; in either dialect the name of a group is
    never empty, and a name that comes out empty means the store, the
    client and the sender all had none and the jid has no user part. *)
Theorem GetChatName_precedence (st : db) (jid : JID) (chatJID : string)
    (conversation : option conversation_names) (sender : string) :
  (forall name t,
     isPostgres = false -> chat_pk st ->
     In (ChatRow chatJID name t) (chats st) -> name <> EmptyString ->
     GetChatName isPostgres GetGroupInfo GetContact st jid chatJID
       conversation sender = name)
  /\ (Server jid = group_server ->
      GetChatName isPostgres GetGroupInfo GetContact st jid chatJID
        conversation sender <> EmptyString)
  /\ (GetChatName isPostgres GetGroupInfo GetContact st jid chatJID
        conversation sender = EmptyString ->
      Server jid <> group_server /\ sender = EmptyString
      /\ User jid = EmptyString).
Proof.
  split; [|split].
  - intros name t Hd Hpk Hin Hne. unfold GetChatName, existing_name.
    rewrite Hd.
    destruct (filter_unique c_jid chatJID (chat_key chatJID)
                (chat_key_spec chatJID) (chats st) Hpk) as (r & Hf & Hr).
    { apply existsb_exists. exists (ChatRow chatJID name t).
      split; [exact Hin|]. apply String.eqb_refl. }
    rewrite (find_filter (chat_key chatJID)), Hf. simpl.
    assert (Hk : c_jid r = chatJID).
    { assert (H : In r (List.filter (chat_key chatJID) (chats st)))
        by (rewrite Hf; now left).
      apply filter_In in H as [_ H]. now apply chat_key_spec. }
    rewrite (NoDup_key_inj c_jid (chats st) Hpk r (ChatRow chatJID name t)
               Hr Hin Hk).
    simpl. apply String.eqb_neq in Hne. now rewrite Hne.
  - intros Hg. unfold GetChatName.
    destruct (non_empty (existing_name isPostgres st chatJID)) as [n|] eqn:E;
      [now apply non_empty_Some in E|].
    apply String.eqb_eq in Hg. rewrite Hg.
    match goal with
    | |- context [String.eqb ?n EmptyString] =>
        destruct (String.eqb n EmptyString) eqn:En
    end; [|now apply String.eqb_neq in En].
    destruct (non_empty (GetGroupInfo jid)) as [g|] eqn:Eg;
      [now apply non_empty_Some in Eg|].
    apply append_nonempty. discriminate.
  - unfold GetChatName.
    destruct (non_empty (existing_name isPostgres st chatJID)) as [n|] eqn:E.
    { intros ->. now apply non_empty_Some in E. }
    destruct (String.eqb (Server jid) group_server) eqn:Hg.
    + match goal with
      | |- context [String.eqb ?n EmptyString] =>
          destruct (String.eqb n EmptyString) eqn:En
      end; [|intros H; apply String.eqb_neq in En; contradiction].
      destruct (non_empty (GetGroupInfo jid)) as [g|] eqn:Eg.
      * intros ->. now apply non_empty_Some in Eg.
      * intros H. exfalso. revert H. apply append_nonempty. discriminate.
    + apply String.eqb_neq in Hg.
      destruct (non_empty (GetContact jid)) as [f|] eqn:Ef.
      { intros ->. now apply non_empty_Some in Ef. }
      destruct (String.eqb sender EmptyString) eqn:Es; simpl.
      * apply String.eqb_eq in Es. auto.
      * intros ->. now rewrite String.eqb_refl in Es.
Qed.




End LiveFacts.

(** * Further properties of the history reconciler *)

Section HistoryMore.
Import Store History Live.

Variable isPostgres : bool.
Variable ParseJID : string -> option JID.
Variable GetChatName : db -> JID -> string -> ConversationEntry -> string.
Variable ownUser : string.
Variable now_stamp : string.

Lemma store_history_message_step (chatJID : string) (jid : JID)
    (acc : db * nat) (msg : HistorySyncMsg) :
  store_history_message isPostgres ownUser now_stamp chatJID jid acc msg
  = if storable now_stamp msg then
      match web_message msg with
      | Some w =>
          match
            StoreMessage_row isPostgres (fst acc) (history_row_of ownUser now_stamp chatJID jid w)
          with
          | (st', None) => (st', S (snd acc))
          | (st', Some _) => (st', snd acc)
          end
      | None => acc
      end
    else acc.
Proof.
  unfold store_history_message, storable, history_row_of, StoreMessage_row.
  destruct (web_message msg) as [w|]; [|reflexivity].
  destruct (extractMediaInfo now_stamp (Message w))
    as [[[[[[mediaType filename] url] mediaKey] sha] enc] flen].
  cbn [fst snd].
  destruct (String.eqb (history_content w) EmptyString
            && String.eqb mediaType EmptyString); [reflexivity|].
  destruct (history_sender ownUser jid w) as [sender isFromMe].
  cbn [negb andb fst snd].
  destruct (MessageTimestamp w =? 0)%Z; reflexivity.
Qed.

Lemma history_row_of_key (chatJID : string) (jid : JID) (w : WebMessageInfo) :
  (m_id (history_row_of ownUser now_stamp chatJID jid w),
   m_chat_jid (history_row_of ownUser now_stamp chatJID jid w))
  = (history_msgID w, chatJID).
Proof.
  unfold history_row_of.
  destruct (extractMediaInfo now_stamp (Message w))
    as [[[[[[mediaType filename] url] mediaKey] sha] enc] flen].
  reflexivity.
Qed.

Lemma storable_row_has_content (chatJID : string) (jid : JID)
    (msg : HistorySyncMsg) (w : WebMessageInfo) :
  storable now_stamp msg = true -> web_message msg = Some w ->
  String.eqb (m_content (history_row_of ownUser now_stamp chatJID jid w)) EmptyString
  && String.eqb (m_media_type (history_row_of ownUser now_stamp chatJID jid w)) EmptyString
  = false.
Proof.
  unfold storable, history_row_of. intros H E. rewrite E in H.
  destruct (extractMediaInfo now_stamp (Message w))
    as [[[[[[mediaType filename] url] mediaKey] sha] enc] flen].
  cbn [fst snd m_content m_media_type] in *.
  apply andb_true_iff in H as [H _]. now apply negb_true_iff in H.
Qed.

Lemma StoreMessage_row_accepted (st : db) (r : message_row) :
  db_wf st -> has_chat st (m_chat_jid r) = true ->
  String.eqb (m_content r) EmptyString
  && String.eqb (m_media_type r) EmptyString = false ->
  exists st',
    StoreMessage_row isPostgres st r = (st', None)
    /\ db_wf st' /\ chats st' = chats st
    /\ (forall m, In m (messages st') <->
                  m = r \/ (In m (messages st)
                            /\ message_key (m_id r) (m_chat_jid r) m = false)).
Proof.
  intros Hwf Hch Hne.
  pose proof (StoreMessage_wf isPostgres st r Hwf) as Hwf'.
  unfold StoreMessage_row, StoreMessage in *. rewrite Hne, Hch in *.
  eexists. split; [reflexivity|]. split; [exact Hwf'|].
  split; [reflexivity|]. intros m. simpl.
  replace (MessageRow (m_id r) (m_chat_jid r) (m_sender r) (m_content r)
             (m_timestamp r) (m_is_from_me r) (m_media_type r) (m_filename r)
             (m_url r) (m_media_key r) (m_file_sha256 r)
             (m_file_enc_sha256 r) (m_file_length r)) with r
    by now destruct r.
  apply (upsert_In isPostgres (fun m => (m_id m, m_chat_jid m))
           (m_id r, m_chat_jid r));
    [apply message_key_spec|reflexivity|apply Hwf].
Qed.

Lemma has_message_In (st : db) (id chatJID : string) :
  has_message st id chatJID = true
  <-> exists m, In m (messages st) /\ m_id m = id /\ m_chat_jid m = chatJID.
Proof.
  unfold has_message. rewrite existsb_exists. split.
  - intros (m & Hm & E). apply message_key_spec in E. injection E. eauto.
  - intros (m & Hm & E1 & E2). exists m. split; [exact Hm|].
    apply message_key_spec. congruence.
Qed.

(** The message loop, from a store that satisfies the schema and holds the
    chat. *)
Lemma history_loop (chatJID : string) (jid : JID)
    (msgs : list HistorySyncMsg) (acc : db * nat) :
  db_wf (fst acc) -> has_chat (fst acc) chatJID = true ->
  let r :=
    fold_left (store_history_message isPostgres ownUser now_stamp chatJID jid)
      msgs acc in
  db_wf (fst r)
  /\ chats (fst r) = chats (fst acc)
  /\ snd r = snd acc + length (List.filter (storable now_stamp) msgs)
  /\ (forall id c, has_message (fst acc) id c = true ->
                   has_message (fst r) id c = true)
  /\ (forall msg w, In msg msgs -> storable now_stamp msg = true ->
                    web_message msg = Some w ->
                    has_message (fst r) (history_msgID w) chatJID = true)
  /\ (forall m, In m (messages (fst r)) ->
                In m (messages (fst acc)) \/ m_chat_jid m = chatJID).
Proof.
  revert acc. induction msgs as [|msg msgs IH]; intros acc Hwf Hch; simpl.
  { split; [exact Hwf|]. split; [reflexivity|]. split; [lia|].
    split; [auto|]. split; [intros msg w []|auto]. }
  rewrite store_history_message_step.
  destruct (storable now_stamp msg) eqn:Hs.
  2:{ destruct (IH acc Hwf Hch) as (H1 & H2 & H3 & H4 & H5 & H6).
      split; [exact H1|]. split; [exact H2|]. split; [exact H3|].
      split; [exact H4|]. split; [|exact H6].
      intros msg' w [<-|Hin] Hs' Hw; [congruence|eauto]. }
  destruct (web_message msg) as [w|] eqn:Hw.
  2:{ unfold storable in Hs. rewrite Hw in Hs. discriminate. }
  pose proof (history_row_of_key chatJID jid w) as Hkey.
  injection Hkey as Hid Hjid.
  destruct (StoreMessage_row_accepted (fst acc) (history_row_of ownUser now_stamp chatJID jid w)
              Hwf) as (st' & -> & Hwf' & Hchats & Hmem).
  { now rewrite Hjid. }
  { now apply (storable_row_has_content chatJID jid msg w). }
  assert (Hch' : has_chat st' chatJID = true)
    by (unfold has_chat in *; now rewrite Hchats).
  destruct (IH (st', S (snd acc)) Hwf' Hch') as (H1 & H2 & H3 & H4 & H5 & H6).
  cbn [fst snd] in *.
  assert (Hkeep : forall id c, has_message (fst acc) id c = true ->
                               has_message st' id c = true).
  { intros id c H. apply has_message_In in H as (m & Hm & E1 & E2).
    apply has_message_In.
    destruct (message_key (m_id (history_row_of ownUser now_stamp chatJID jid w))
                (m_chat_jid (history_row_of ownUser now_stamp chatJID jid w)) m) eqn:E.
    - exists (history_row_of ownUser now_stamp chatJID jid w).
      apply message_key_spec in E. injection E as E3 E4.
      split; [apply Hmem; now left|]. split; congruence.
    - exists m. split; [apply Hmem; right; auto|]. auto. }
  split; [exact H1|]. split; [congruence|]. split; [cbn [length]; lia|].
  split; [auto|]. split.
  - intros msg' w' [<-|Hin] Hs' Hw'; [|eauto].
    rewrite Hw in Hw'. injection Hw' as <-. apply H4.
    apply has_message_In. exists (history_row_of ownUser now_stamp chatJID jid w).
    split; [apply Hmem; now left|]. auto.
  - intros m Hm. destruct (H6 m Hm) as [Hin|E]; [|now right].
    apply Hmem in Hin as [->|[Hin _]]; [now right|now left].
Qed.

Lemma handleConversation_wf (acc : db * nat) (conversation : ConversationEntry) :
  db_wf (fst acc) ->
  db_wf (fst (handleConversation isPostgres ParseJID GetChatName ownUser
                now_stamp acc conversation)).
Proof.
  intros Hwf. unfold handleConversation.
  destruct (conv_ID conversation) as [chatJID|]; [|exact Hwf].
  destruct (ParseJID chatJID) as [jid|]; [|exact Hwf].
  destruct (Messages conversation) as [|latest rest] eqn:Hm; [exact Hwf|].
  destruct (web_message latest) as [w|]; [|exact Hwf].
  destruct (MessageTimestamp w =? 0)%Z; [exact Hwf|].
  apply (history_loop chatJID jid (latest :: rest)
           (fst (StoreChat isPostgres (fst acc) chatJID
                   (GetChatName (fst acc) jid chatJID conversation)
                   (MessageTimestamp w)), snd acc)).
  - now apply StoreChat_wf.
  - simpl. apply existsb_exists.
    exists (ChatRow chatJID (GetChatName (fst acc) jid chatJID conversation)
              (MessageTimestamp w)).
    split; [|apply String.eqb_refl].
    apply (upsert_In isPostgres c_jid chatJID);
      [apply chat_key_spec|reflexivity|apply Hwf|now left].
Qed.

(** X14: a history batch keeps the schema: from a store whose keys are
    distinct and whose messages all have their chat, [handleHistorySync]
    ends in such a store, whatever the batch holds. *)
Theorem handleHistorySync_keeps_schema (st : db)
    (conversations : list ConversationEntry) :
  db_wf st ->
  db_wf (fst (handleHistorySync isPostgres ParseJID GetChatName ownUser
                now_stamp st conversations)).
Proof.
  unfold handleHistorySync. intros Hwf.
  change st with (fst (st, 0)) in Hwf. revert Hwf.
  generalize (st, 0). induction conversations as [|c cs IH]; intros acc Hwf;
    simpl; [exact Hwf|].
  apply IH. now apply handleConversation_wf.
Qed.


End HistoryMore.

(** * Properties of sender names, chat listings and direct paths *)

Section ListingFacts.
Import Store Query Listings.

Variable isPostgres : bool.
Variable sql_like : string -> string -> bool.
Variable sql_lower : string -> string.
Variable name_leb : string -> string -> bool.

Lemma find_unique_row (st : db) (jid name : string) (t : time) :
  chat_pk st -> In (ChatRow jid name t) (chats st) ->
  List.find (chat_key jid) (chats st) = Some (ChatRow jid name t).
Proof.
  intros Hpk Hin.
  destruct (List.find (chat_key jid) (chats st)) as [c|] eqn:F.
  - apply find_some in F as [Hc Ek]. apply chat_key_spec in Ek.
    f_equal. exact (NoDup_key_inj c_jid (chats st) Hpk _ _ Hc Hin Ek).
  - pose proof (find_none _ _ F _ Hin) as Hn. unfold chat_key in Hn.
    simpl in Hn. now rewrite String.eqb_refl in Hn.
Qed.

(** X16: [GetSenderName] falls back step by step.  A non-empty name stored
    for exactly the sender's jid is returned; whatever is returned is the
    identifier itself or the non-empty name of a stored chat whose jid is
    the sender's or matches the phone pattern; so a non-empty identifier
    never resolves to an empty name. *)
Theorem GetSenderName_fallbacks (st : db) (senderJID : string) :
  (forall name t,
     chat_pk st -> In (ChatRow senderJID name t) (chats st) ->
     name <> EmptyString ->
     GetSenderName sql_like st senderJID = name)
  /\ (GetSenderName sql_like st senderJID = senderJID
      \/ exists c,
           In c (chats st)
           /\ c_name c = GetSenderName sql_like st senderJID
           /\ c_name c <> EmptyString
           /\ (c_jid c = senderJID
               \/ sql_like (c_jid c) (like_pattern (phone_part senderJID))
                  = true))
  /\ (senderJID <> EmptyString ->
      GetSenderName sql_like st senderJID <> EmptyString).
Proof.
  assert (Hshape :
    GetSenderName sql_like st senderJID = senderJID
    \/ exists c,
         In c (chats st)
         /\ c_name c = GetSenderName sql_like st senderJID
         /\ c_name c <> EmptyString
         /\ (c_jid c = senderJID
             \/ sql_like (c_jid c) (like_pattern (phone_part senderJID))
                = true)).
  { unfold GetSenderName.
    destruct (Live.non_empty
                (option_map c_name
                   (List.find (chat_key senderJID) (chats st))))
      as [n|] eqn:E1.
    - apply non_empty_Some in E1 as [E1 Hn].
      destruct (List.find (chat_key senderJID) (chats st)) as [c|] eqn:F;
        [|discriminate].
      simpl in E1. injection E1 as <-.
      apply find_some in F as [Hin Hk]. apply chat_key_spec in Hk.
      right. exists c. auto.
    - destruct (Live.non_empty
                  (option_map c_name
                     (List.find
                        (fun c => sql_like (c_jid c)
                                    (like_pattern (phone_part senderJID)))
                        (chats st))))
        as [n|] eqn:E2; [|now left].
      apply non_empty_Some in E2 as [E2 Hn].
      destruct (List.find
                  (fun c => sql_like (c_jid c)
                              (like_pattern (phone_part senderJID)))
                  (chats st)) as [c|] eqn:F; [|discriminate].
      simpl in E2. injection E2 as <-.
      apply find_some in F as [Hin Hl].
      right. exists c. auto. }
  split; [|split; [exact Hshape|]].
  - intros name t Hpk Hin Hne. unfold GetSenderName.
    rewrite (find_unique_row st senderJID name t Hpk Hin). simpl.
    apply String.eqb_neq in Hne. now rewrite Hne.
  - intros Hne. destruct Hshape as [->|(c & _ & <- & Hc & _)]; assumption.
Qed.

(** X17: [ListChats] cannot succeed in the postgres dialect, where its
    [OFFSET] placeholder is numbered past the arguments it passes, nor
    without the last-message join, whose columns it always selects. *)
Theorem ListChats_rejected (st : db) (query : option string) (limit page : Z)
    (includeLastMessage : bool) (sortBy : string) :
  isPostgres = true \/ includeLastMessage = false ->
  ListChats isPostgres sql_like sql_lower name_leb st query limit page
    includeLastMessage sortBy = None.
Proof.
  intros [Hp|Hj]; unfold ListChats.
  - rewrite Hp. destruct (negb includeLastMessage); [reflexivity|].
    destruct query as [q|]; [destruct (negb (String.eqb q EmptyString))|];
      reflexivity.
  - rewrite Hj. reflexivity.
Qed.


Lemma StronglySorted_skipn {A : Type} (R : A -> A -> Prop) (k : nat)
    (l : list A) :
  StronglySorted R l -> StronglySorted R (skipn k l).
Proof.
  intros H. revert k. induction H as [|a l Hs IH Hall]; intros [|k]; simpl;
    try constructor; auto.
Qed.



End ListingFacts.

Section ListingFacts2.
Import Store Query Listings.

Variable sql_like : string -> string -> bool.
Variable sql_lower : string -> string.
Variable name_leb : string -> string -> bool.

(** X19: in the sqlite dialect, with the join and non-negative page and
    limit, [ListChats] returns at most [limit] chats; each is a stored chat
    row that matches the query by name or by jid when a query is given, and
    unless sorting by name was asked the chats come newest first. *)
Theorem ListChats_sqlite (st : db) (query : option string) (limit page : Z)
    (sortBy : string) :
  (0 <= limit)%Z -> (0 <= page)%Z ->
  exists l,
    ListChats false sql_like sql_lower name_leb st query limit page true sortBy
    = Some l
    /\ length l <= Z.to_nat limit
    /\ Forall
         (fun c =>
            In (ChatRow (JID c) (Name c) (LastMessageTime c)) (chats st)
            /\ (forall q, query = Some q -> q <> EmptyString ->
                          sql_like (sql_lower (Name c))
                            (sql_lower (like_pattern q))
                          || sql_like (JID c) (like_pattern q) = true))
         l
    /\ (sortBy <> sort_by_name ->
        StronglySorted
          (fun x y => (LastMessageTime y <= LastMessageTime x)%Z) l).
Proof.
  intros Hl Hp. unfold ListChats. cbn [negb andb].
  set (f := fun r : joined_chat =>
              match query with
              | Some q =>
                  if String.eqb q EmptyString then true
                  else sql_like (sql_lower (c_name (fst r)))
                         (sql_lower (like_pattern q))
                       || sql_like (c_jid (fst r)) (like_pattern q)
              | None => true
              end).
  set (ordered := if String.eqb sortBy sort_by_name
                  then merge_sort (joined_name_asc name_leb)
                         (List.filter f (left_join_last_message st))
                  else merge_sort joined_time_desc
                         (List.filter f (left_join_last_message st))).
  assert (Hperm : Permutation ordered
                    (List.filter f (left_join_last_message st))).
  { unfold ordered. destruct (String.eqb sortBy sort_by_name);
      apply merge_sort_Permutation. }
  unfold sql_offset.
  destruct (page * limit <? 0)%Z eqn:E; [apply Z.ltb_lt in E; nia|].
  rewrite sql_limit_nonneg by exact Hl.
  eexists. split; [reflexivity|].
  split; [rewrite length_map, length_firstn; lia|]. split.
  - apply List.Forall_forall. intros c Hc.
    apply in_map_iff in Hc as (r & <- & Hr).
    apply firstn_In, skipn_In in Hr. apply (Permutation_in _ Hperm) in Hr.
    apply filter_In in Hr as [Hr Hf]. apply left_join_In in Hr.
    assert (Hrow : JID (chat_of r) = c_jid (fst r)
                   /\ Name (chat_of r) = c_name (fst r)
                   /\ LastMessageTime (chat_of r)
                      = c_last_message_time (fst r))
      by (unfold chat_of; destruct (snd r); auto).
    destruct Hrow as (-> & -> & ->). split; [now destruct (fst r)|].
    intros q -> Hq. unfold f in Hf.
    apply String.eqb_neq in Hq. now rewrite Hq in Hf.
  - intros Hs. apply String.eqb_neq in Hs. unfold ordered. rewrite Hs.
    apply (StronglySorted_map joined_time_desc).
    + intros x y H. unfold joined_time_desc in H.
      unfold chat_of. destruct (snd x), (snd y); exact H.
    + apply StronglySorted_firstn, StronglySorted_skipn.
      apply StronglySorted_merge_sort.
      * intros a b c. unfold joined_time_desc. lia.
      * intros a b. unfold joined_time_desc. lia.
Qed.

Lemma substring_of_prefix (s : string) (j k : nat) (c : Ascii.ascii) :
  String.substring k 1 (String.substring 0 j s) = String c EmptyString ->
  k < j /\ String.substring k 1 s = String c EmptyString.
Proof.
  revert j k. induction s as [|a s IH]; intros j k.
  - destruct j, k; discriminate.
  - destruct j as [|j]; [destruct k; discriminate|].
    destruct k as [|k]; simpl.
    + intros H. split; [lia|]. destruct (String.substring 0 j s);
        destruct s; exact H.
    + intros H. apply IH in H as [H1 H2]. split; [lia|exact H2].
Qed.

(** X20: [extractDirectPathFromURL] returns the URL itself when it has no
    ".net/"; otherwise a "/" followed by what stands after the first
    ".net/", cut before its first "?": the path returned never contains a
    question mark. *)
Theorem extractDirectPathFromURL_shape (url : string) :
  match String.index 0 dot_net url with
  | None => extractDirectPathFromURL url = url
  | Some i =>
      let rest :=
        String.substring (i + 5) (String.length url - (i + 5)) url in
      exists p,
        extractDirectPathFromURL url = String.append slash p
        /\ String.index 0 question_mark p = None
        /\ (p = rest
            \/ exists j,
                 String.index 0 question_mark rest = Some j
                 /\ p = String.substring 0 j rest)
  end.
Proof.
  unfold extractDirectPathFromURL, split_first.
  destruct (String.index 0 dot_net url) as [i|]; [|reflexivity].
  cbn [snd String.length dot_net].
  set (rest := String.substring (i + 5) (String.length url - (i + 5)) url).
  cbv zeta.
  destruct (String.index 0 question_mark rest) as [j|] eqn:Ej; cbn [fst].
  - exists (String.substring 0 j rest). split; [reflexivity|].
    split; [|right; eauto].
    destruct (String.index 0 question_mark (String.substring 0 j rest))
      as [k|] eqn:Ek; [|reflexivity].
    exfalso. apply String.index_correct1 in Ek.
    apply substring_of_prefix in Ek as [Hk Hs].
    exact (String.index_correct2 _ _ _ _ Ej k (Nat.le_0_l k) Hk Hs).
  - exists rest. split; [reflexivity|]. split; [exact Ej|now left].
Qed.

End ListingFacts2.

(** * Further properties of the container analyzer *)

Section OggMore.
Import Ogg.

Variable rand_Float64 : Z -> nat -> R.
Variable f64_ceil_quot_u32 : Z -> Z -> Z.

(** X21: a buffer that carries the signature but is too short to hold a
    page header (at most 27 bytes) is accepted without a scan, with the
    size estimate clamped up to one second. *)
Theorem analyzeOggOpus_header_only (data : slice) :
  has_signature data = true ->
  len data <= 27 ->
  analyzeOggOpus rand_Float64 f64_ceil_quot_u32 data
  = Returned (1%Z, placeholderWaveform rand_Float64 1, None).
Proof.
  intros Hsig Hlen. unfold analyzeOggOpus.
  rewrite has_signature_spec in Hsig. apply negb_true_iff in Hsig.
  rewrite Hsig.
  assert (Hscan : scan (len data) data 0 scan_init = Returned scan_init).
  { destruct (len data) as [|n] eqn:E; [reflexivity|].
    cbn [scan]. unfold page_step. rewrite E.
    replace (S n <=? 0 + 27) with true
      by (symmetry; apply Nat.leb_le; lia).
    reflexivity. }
  rewrite Hscan. unfold raw_duration. cbn [lastGranule scan_init Z.ltb Z.compare].
  assert (Hd : (Z.of_nat (len data) / 2000 mod 2 ^ 32 = 0)%Z).
  { rewrite Z.div_small by lia. reflexivity. }
  rewrite Hd. reflexivity.
Qed.

End OggMore.

(** * The last entry of a batch wins *)

Section HistoryLastWrite.
Import Store History Live.

Variable isPostgres : bool.
Variable ParseJID : string -> option JID.
Variable GetChatName : db -> JID -> string -> ConversationEntry -> string.
Variable ownUser : string.
Variable now_stamp : string.




End HistoryLastWrite.

(** * Instances of the further properties *)

Section MoreInstances.
Import Ogg Store Query History Samples MoreSamples Reads Listings.

Lemma StoreChat_upserts_witness :
  let r := StoreChat false sample_db alice "Alicia" 500%Z in
  snd r = None
  /\ List.filter (chat_key alice) (chats (fst r))
     = [ChatRow alice "Alicia" 500%Z]
  /\ List.filter (fun c => negb (chat_key alice c)) (chats (fst r))
     = List.filter (fun c => negb (chat_key alice c)) (chats sample_db)
  /\ messages (fst r) = messages sample_db
  /\ fst (StoreChat false (fst r) alice "Alicia" 500%Z) = fst r.
Proof.
  apply (StoreChat_upserts false sample_db alice "Alicia" 500%Z).
  exact (proj1 sample_db_wf).
Defined.

Lemma StoreChat_then_GetChat_witness :
  exists c,
    GetChat (fst (StoreChat true sample_db "999@s.whatsapp.net" "Zed" 10%Z))
      "999@s.whatsapp.net" true = Ok (Some c)
    /\ Query.JID c = "999@s.whatsapp.net"%string /\ Name c = "Zed"%string
    /\ LastMessageTime c = 10%Z.
Proof.
  apply (StoreChat_then_GetChat true sample_db "999@s.whatsapp.net" "Zed"
           10%Z).
  exact (proj1 sample_db_wf).
Defined.

Lemma GetChat_enrichment_witness :
  let c := chat_of (ChatRow alice "Alice" 300%Z, Some alice_m3) in
  In (ChatRow alice (Name c) (LastMessageTime c)) (chats sample_db)
  /\ Query.JID c = alice
  /\ ((exists m,
         In m (messages sample_db) /\ m_chat_jid m = alice
         /\ m_timestamp m = LastMessageTime c
         /\ LastMessage c = m_content m /\ LastSender c = m_sender m
         /\ LastIsFromMe c = m_is_from_me m)
      \/ ((forall m, In m (messages sample_db) -> m_chat_jid m = alice ->
                     m_timestamp m <> LastMessageTime c)
          /\ LastMessage c = EmptyString /\ LastSender c = EmptyString
          /\ LastIsFromMe c = false)).
Proof.
  apply (GetChat_enrichment sample_db alice
           (chat_of (ChatRow alice "Alice" 300%Z, Some alice_m3))).
  reflexivity.
Defined.




Lemma GetLastInteraction_latest_witness :
  exists j,
    In j (join_chats sample_db)
    /\ (m_sender (fst j) = alice \/ c_jid (snd j) = alice)
    /\ (forall j', In j' (join_chats sample_db) ->
                   m_sender (fst j') = alice \/ c_jid (snd j') = alice ->
                   (m_timestamp (fst j') <= m_timestamp (fst j))%Z)
    /\ GetLastInteraction sample_format sample_db alice
       = Ok (sample_format sample_db (interaction j) true).
Proof.
  apply (GetLastInteraction_latest sample_format sample_db alice
           (alice_m1, ChatRow alice "Alice" 300%Z));
    [left; reflexivity|right; reflexivity].
Defined.

Lemma GetDirectChatByContact_is_direct_witness :
  let c := chat_of (ChatRow alice "Alice" 300%Z, Some alice_m3) in
  In (ChatRow (Query.JID c) (Name c) (LastMessageTime c)) (chats sample_db)
  /\ sample_like (Query.JID c) (String.append percent (String.append "111" percent))
     = true
  /\ sample_like (Query.JID c) group_suffix = false.
Proof.
  apply (GetDirectChatByContact_is_direct sample_like sample_db "111"
           (chat_of (ChatRow alice "Alice" 300%Z, Some alice_m3))).
  reflexivity.
Defined.

Lemma GetMessages_newest_first_witness :
  exists l,
    GetMessages false sample_db alice 2 = Ok l
    /\ length l
       = Nat.min (Z.to_nat 2)
           (length (List.filter (fun m => String.eqb (m_chat_jid m) alice)
                      (messages sample_db)))
    /\ StronglySorted (fun x y => (msg_Time y <= msg_Time x)%Z) l
    /\ Forall (fun x => exists m, In m (messages sample_db)
                                  /\ m_chat_jid m = alice
                                  /\ x = message_of m) l.
Proof.
  apply (GetMessages_newest_first false sample_db alice 2). lia.
Defined.

Lemma GetChats_lookup_witness :
  exists m,
    GetChats sample_db = Ok m
    /\ (m !! alice = Some 300%Z
        <-> exists name, In (ChatRow alice name 300%Z) (chats sample_db)).
Proof.
  apply (GetChats_lookup sample_db alice 300%Z).
  exact (proj1 sample_db_wf).
Defined.

Lemma GetChatName_precedence_witness :
  Live.GetChatName false sample_GetGroupInfo sample_GetContact sample_db
    alice_jid alice None "111" = "Alice"%string.
Proof.
  apply (proj1 (GetChatName_precedence false sample_GetGroupInfo
                  sample_GetContact sample_db alice_jid alice None "111")
           "Alice"%string 300%Z);
    [reflexivity|exact (proj1 sample_db_wf)|left; reflexivity|discriminate].
Defined.


Lemma handleHistorySync_keeps_schema_witness :
  db_wf (fst (handleHistorySync true sample_ParseJID sample_name "999"
                sample_stamp sample_db [oldest_first; no_timestamps])).
Proof.
  apply (handleHistorySync_keeps_schema true sample_ParseJID sample_name
           "999" sample_stamp sample_db [oldest_first; no_timestamps]).
  exact sample_db_wf.
Defined.



Lemma GetSenderName_fallbacks_witness :
  GetSenderName sample_like sample_db alice = "Alice"%string.
Proof.
  apply (proj1 (GetSenderName_fallbacks sample_like sample_db alice)
           "Alice"%string 300%Z);
    [exact (proj1 sample_db_wf)|left; reflexivity|discriminate].
Defined.

Lemma ListChats_rejected_witness :
  ListChats true sample_like sample_lower sample_name_leb sample_db None 20 0
    true "last_active" = None.
Proof.
  apply (ListChats_rejected true sample_like sample_lower sample_name_leb
           sample_db None 20 0 true "last_active").
  left. reflexivity.
Defined.


Lemma ListChats_sqlite_witness :
  exists l,
    ListChats false sample_like sample_lower sample_name_leb sample_db
      (Some "Ali"%string) 20 0 true "last_active" = Some l
    /\ length l <= Z.to_nat 20
    /\ Forall
         (fun c =>
            In (ChatRow (Query.JID c) (Name c) (LastMessageTime c))
              (chats sample_db)
            /\ (forall q, Some "Ali"%string = Some q -> q <> EmptyString ->
                          sample_like (sample_lower (Name c))
                            (sample_lower (like_pattern q))
                          || sample_like (Query.JID c) (like_pattern q) = true))
         l
    /\ ("last_active"%string <> sort_by_name ->
        StronglySorted
          (fun x y => (LastMessageTime y <= LastMessageTime x)%Z) l).
Proof.
  apply (ListChats_sqlite sample_like sample_lower sample_name_leb sample_db
           (Some "Ali"%string) 20 0 "last_active"); lia.
Defined.

Lemma analyzeOggOpus_header_only_witness :
  analyzeOggOpus rand_half exact_ceil_quot signature_only
  = Returned (1%Z, placeholderWaveform rand_half 1, None).
Proof.
  apply (analyzeOggOpus_header_only rand_half exact_ceil_quot signature_only);
    [reflexivity|simpl; lia].
Defined.

Lemma analyzeOggOpus_returns_witness :
  exists r, analyzeOggOpus rand_half exact_ceil_quot roomy_page = Returned r.
Proof.
  apply (analyzeOggOpus_returns rand_half exact_ceil_quot roomy_page).
  apply Z.leb_le. vm_compute. reflexivity.
Defined.

End MoreInstances.
